(** * GuardDuty enabler: a shallow embedding of [security/guardduty/index.py]

    The Lambda handler of the repository enables GuardDuty for a whole AWS
    organization: it provisions one S3 publishing destination with its KMS
    key, walks over every GuardDuty region, makes the security account the
    delegated administrator, enrolls the other accounts, and reports back
    to CloudFormation.

    The embedding keeps the shape of the Python module:
    - a Python [str] is a Rocq [string]; a character stands for the code
      point of the same number (U+0000 to U+00FF);
    - every boto3 / urllib3 request is a constructor of [call]; what the
      provider answers is decided by an oracle that threads a world state,
      so that the same request may be answered differently at different
      moments of a run;
    - exceptions are values of [exn] (the subclasses of Python's
      [Exception]); [try ... except] is [try_except];
    - the module globals [failed_regions] and [failed_members] are fields
      of the program state and outlive one invocation;
    - every run also yields the list of the requests it made, of the lines
      it logged and of the functions it entered, in order. *)

From Stdlib Require Import Ascii String ZArith DecimalPos DecimalFacts.
From stdpp Require Import base strings list gmap.

Open Scope string_scope.
Open Scope list_scope.

(** ** Python string methods used by the module *)

Module PyStr.

(** [s.startswith(p)] *)
Definition startswith (s p : string) : bool := String.prefix p s.

(** The scan behind [str.replace] for a non-empty [old]: at each position
    where [old] starts, [new] is emitted and the matched characters are
    skipped ([skip] counts the ones still to drop). *)
Fixpoint replace_from (old new : string) (skip : nat) (s : string) {struct s} : string :=
  match s with
  | EmptyString => EmptyString
  | String c s' =>
      match skip with
      | S k => replace_from old new k s'
      | O =>
          if String.prefix old s
          then new +:+ replace_from old new (String.length old - 1) s'
          else String c (replace_from old new 0 s')
      end
  end.

(** With an empty [old], Python puts [new] before every character and at
    the end. *)
Fixpoint interleave (new s : string) : string :=
  match s with
  | EmptyString => new
  | String c s' => new +:+ String c (interleave new s')
  end.

(** [s.replace(old, new)] *)
Definition replace (s old new : string) : string :=
  match old with
  | EmptyString => interleave new s
  | String _ _ => replace_from old new 0 s
  end.

(** The scan behind [str.split(sep)] for a non-empty [sep]; [cur] is the
    segment being read. *)
Fixpoint split_from (sep : string) (skip : nat) (cur : string) (s : string) {struct s} : list string :=
  match s with
  | EmptyString => [cur]
  | String c s' =>
      match skip with
      | S k => split_from sep k cur s'
      | O =>
          if String.prefix sep s
          then cur :: split_from sep (String.length sep - 1) EmptyString s'
          else split_from sep 0 (cur +:+ String c EmptyString) s'
      end
  end.

(** [s.split(sep)]; Python raises [ValueError] on an empty separator, which
    is [None] here. *)
Definition split (s sep : string) : option (list string) :=
  match sep with
  | EmptyString => None
  | String _ _ => Some (split_from sep 0 EmptyString s)
  end.

(** What "literal substring replacement" means: reading [s] from the left,
    every occurrence of [old] that starts at the current position is
    replaced and reading goes on behind it; any other character is kept. *)
Inductive Replaced (old new : string) : string -> string -> Prop :=
| Replaced_end : Replaced old new EmptyString EmptyString
| Replaced_hit s t :
    Replaced old new s t -> Replaced old new (old +:+ s) (new +:+ t)
| Replaced_keep c s t :
    String.prefix old (String c s) = false ->
    Replaced old new s t -> Replaced old new (String c s) (String c t).

End PyStr.

(** ** JSON values and Python's [json.dumps] *)

Module Json.

(** The values [json.dumps] is applied to in the module: dictionaries with
    string keys (in insertion order), lists, strings, integers, booleans
    and [None]. *)
#[local] Unset Elimination Schemes.
Inductive json : Type :=
| JNull
| JBool (b : bool)
| JInt (z : Z)
| JStr (s : string)
| JArr (items : list json)
| JObj (members : list (string * json)).
#[local] Set Elimination Schemes.

(** [d[k]] on a dictionary *)
Fixpoint dict_get (k : string) (d : list (string * json)) : option json :=
  match d with
  | [] => None
  | (k', v) :: d' => if String.eqb k k' then Some v else dict_get k d'
  end.

(** [d[k] = v]: an existing key keeps its place, a new key goes last. *)
Fixpoint dict_set (k : string) (v : json) (d : list (string * json)) : list (string * json) :=
  match d with
  | [] => [(k, v)]
  | (k', v') :: d' =>
      if String.eqb k k' then (k, v) :: d' else (k', v') :: dict_set k v d'
  end.

(** The value of the field [k] of a dictionary *)
Definition field (k : string) (v : json) : option json :=
  match v with
  | JObj d => dict_get k d
  | _ => None
  end.

(** A Python dictionary has no two equal keys. *)
Fixpoint wf (v : json) : Prop :=
  match v with
  | JArr items => (fix all (l : list json) : Prop :=
                     match l with [] => True | x :: l' => wf x /\ all l' end) items
  | JObj members =>
      NoDup (map fst members) /\
      (fix all (l : list (string * json)) : Prop :=
         match l with [] => True | (_, x) :: l' => wf x /\ all l' end) members
  | _ => True
  end.

(** *** Numbers *)

Fixpoint uint_str (u : Decimal.uint) : string :=
  match u with
  | Decimal.Nil => EmptyString
  | Decimal.D0 u' => String "0" (uint_str u')
  | Decimal.D1 u' => String "1" (uint_str u')
  | Decimal.D2 u' => String "2" (uint_str u')
  | Decimal.D3 u' => String "3" (uint_str u')
  | Decimal.D4 u' => String "4" (uint_str u')
  | Decimal.D5 u' => String "5" (uint_str u')
  | Decimal.D6 u' => String "6" (uint_str u')
  | Decimal.D7 u' => String "7" (uint_str u')
  | Decimal.D8 u' => String "8" (uint_str u')
  | Decimal.D9 u' => String "9" (uint_str u')
  end.

(** [str(n)] for an integer *)
Definition int_str (z : Z) : string :=
  match z with
  | Z0 => "0"
  | Zpos p => uint_str (Pos.to_uint p)
  | Zneg p => String "-" (uint_str (Pos.to_uint p))
  end.

(** *** Strings: [ensure_ascii] escaping *)

Definition hex_digit (n : N) : ascii :=
  match n with
  | 0 => "0" | 1 => "1" | 2 => "2" | 3 => "3" | 4 => "4" | 5 => "5"
  | 6 => "6" | 7 => "7" | 8 => "8" | 9 => "9" | 10 => "a" | 11 => "b"
  | 12 => "c" | 13 => "d" | 14 => "e" | _ => "f"
  end%N%char.

(** [ESCAPE_DCT] of the standard encoder, then the [\uXXXX] form for
    whatever is outside [' '..'~']. *)
Definition escape_char (c : ascii) : string :=
  let n := N_of_ascii c in
  if (n =? 34)%N then "\" +:+ String c EmptyString
  else if (n =? 92)%N then "\\"
  else if (n =? 8)%N then "\b"
  else if (n =? 12)%N then "\f"
  else if (n =? 10)%N then "\n"
  else if (n =? 13)%N then "\r"
  else if (n =? 9)%N then "\t"
  else if ((32 <=? n) && (n <=? 126))%N then String c EmptyString
  else "\u00" +:+ String (hex_digit (n / 16)) (String (hex_digit (n mod 16)) EmptyString).

(** The body of a string literal *)
Fixpoint escape (s : string) : string :=
  match s with
  | EmptyString => EmptyString
  | String c s' => escape_char c +:+ escape s'
  end.

(** The double quote *)
Definition quote : ascii := ascii_of_N 34.

(** A string as a JSON string literal *)
Definition dumps_str (s : string) : string :=
  String quote (escape s +:+ String quote EmptyString).

(** *** [json.dumps] with its default separators [", "] and [": "] *)

(** The elements of a list behind its opening bracket, [dump] being the
    encoder of one element. *)
Definition dumps_items (dump : json -> string) : list json -> string :=
  fix go (l : list json) : string :=
    match l with
    | [] => "]"
    | x :: l' =>
        match l' with
        | [] => dump x +:+ "]"
        | _ :: _ => dump x +:+ ", " +:+ go l'
        end
    end.

(** The members of a dictionary behind its opening brace. *)
Definition dumps_members (dump : json -> string) : list (string * json) -> string :=
  fix go (l : list (string * json)) : string :=
    match l with
    | [] => "}"
    | (k, x) :: l' =>
        match l' with
        | [] => dumps_str k +:+ ": " +:+ dump x +:+ "}"
        | _ :: _ => dumps_str k +:+ ": " +:+ dump x +:+ ", " +:+ go l'
        end
    end.

Fixpoint dumps (v : json) : string :=
  match v with
  | JNull => "null"
  | JBool true => "true"
  | JBool false => "false"
  | JInt z => int_str z
  | JStr s => dumps_str s
  | JArr items => "[" +:+ dumps_items dumps items
  | JObj members => "{" +:+ dumps_members dumps members
  end.

(** *** The wire form: [body.encode('utf-8')] *)

Definition utf8_char (c : ascii) : list Byte.byte :=
  let n := N_of_ascii c in
  if (n <? 128)%N then [byte_of_ascii c]
  else [byte_of_ascii (ascii_of_N (192 + n / 64));
        byte_of_ascii (ascii_of_N (128 + n mod 64))].

Fixpoint utf8_encode (s : string) : list Byte.byte :=
  match s with
  | EmptyString => []
  | String c s' => utf8_char c ++ utf8_encode s'
  end.

(** *** Decoding, as the receiver of the callback does it

    The module never decodes: the functions of this part are not taken
    from it. They follow [bytes.decode('utf-8')] and [json.loads] on the
    documents the module can send: integers are the only numbers, and an
    escape or a byte sequence naming a code point above U+00FF is
    refused. *)

(** Modelled from the spec: the decoding of the wire form of the callback
    payload, which the module leaves to the receiver; here the UTF-8
    part. *)
Fixpoint utf8_decode (bs : list Byte.byte) : option string :=
  match bs with
  | [] => Some EmptyString
  | b :: bs' =>
      let n := N_of_ascii (ascii_of_byte b) in
      if (n <? 128)%N then String (ascii_of_byte b) <$> utf8_decode bs'
      else if ((194 <=? n) && (n <=? 195))%N then
        match bs' with
        | b2 :: bs'' =>
            let m := N_of_ascii (ascii_of_byte b2) in
            if ((128 <=? m) && (m <=? 191))%N
            then String (ascii_of_N ((n - 192) * 64 + (m - 128))) <$> utf8_decode bs''
            else None
        | [] => None
        end
      else None
  end.

Definition is_ws (c : ascii) : bool :=
  let n := N_of_ascii c in
  ((n =? 32) || (n =? 9) || (n =? 10) || (n =? 13))%N.

Fixpoint skip_ws (s : string) : string :=
  match s with
  | EmptyString => EmptyString
  | String c s' => if is_ws c then skip_ws s' else s
  end.

Definition hex_val (c : ascii) : option N :=
  let n := N_of_ascii c in
  if ((48 <=? n) && (n <=? 57))%N then Some (n - 48)%N
  else if ((97 <=? n) && (n <=? 102))%N then Some (n - 87)%N
  else if ((65 <=? n) && (n <=? 70))%N then Some (n - 55)%N
  else None.

Definition hex4 (a b c d : ascii) : option N :=
  match hex_val a, hex_val b, hex_val c, hex_val d with
  | Some x, Some y, Some z, Some w => Some (((x * 16 + y) * 16 + z) * 16 + w)%N
  | _, _, _, _ => None
  end.

(** The one-letter escapes of the JSON grammar *)
Definition unescape (e : ascii) : option ascii :=
  let n := N_of_ascii e in
  if (n =? 34)%N then Some e
  else if (n =? 92)%N then Some e
  else if (n =? 47)%N then Some e
  else if (n =? 98)%N then Some (ascii_of_N 8)
  else if (n =? 102)%N then Some (ascii_of_N 12)
  else if (n =? 110)%N then Some (ascii_of_N 10)
  else if (n =? 114)%N then Some (ascii_of_N 13)
  else if (n =? 116)%N then Some (ascii_of_N 9)
  else None.

Definition push (c : ascii) (p : string * string) : string * string :=
  (String c (fst p), snd p).

(** Reads a string literal behind its opening quote, up to and including
    the closing quote (strict mode: no raw control character). *)
Fixpoint scan_string (s : string) : option (string * string) :=
  match s with
  | EmptyString => None
  | String c s' =>
      let n := N_of_ascii c in
      if (n =? 34)%N then Some (EmptyString, s')
      else if (n =? 92)%N then
        match s' with
        | EmptyString => None
        | String e s'' =>
            if (N_of_ascii e =? 117)%N then
              match s'' with
              | String h1 (String h2 (String h3 (String h4 s3))) =>
                  match hex4 h1 h2 h3 h4 with
                  | Some u =>
                      if (u <? 256)%N then push (ascii_of_N u) <$> scan_string s3
                      else None
                  | None => None
                  end
              | _ => None
              end
            else
              match unescape e with
              | Some ch => push ch <$> scan_string s''
              | None => None
              end
        end
      else if (n <? 32)%N then None
      else push c <$> scan_string s'
  end.

Definition digit_of (c : ascii) : option (Decimal.uint -> Decimal.uint) :=
  match N_of_ascii c with
  | 48 => Some Decimal.D0 | 49 => Some Decimal.D1 | 50 => Some Decimal.D2
  | 51 => Some Decimal.D3 | 52 => Some Decimal.D4 | 53 => Some Decimal.D5
  | 54 => Some Decimal.D6 | 55 => Some Decimal.D7 | 56 => Some Decimal.D8
  | 57 => Some Decimal.D9 | _ => None
  end%N.

Fixpoint scan_digits (s : string) : Decimal.uint * string :=
  match s with
  | EmptyString => (Decimal.Nil, EmptyString)
  | String c s' =>
      match digit_of c with
      | Some d => let r := scan_digits s' in (d (fst r), snd r)
      | None => (Decimal.Nil, s)
      end
  end.

(** What may not follow an integer: a fraction or an exponent would make
    it a float. *)
Definition float_tail (s : string) : bool :=
  match s with
  | EmptyString => false
  | String c _ =>
      let n := N_of_ascii c in ((n =? 46) || (n =? 101) || (n =? 69))%N
  end.

(** Text that may follow an integer without changing how it is read: it
    starts neither with a digit nor with a fraction or an exponent. *)
Definition int_stop (s : string) : bool :=
  match s with
  | EmptyString => true
  | String c _ =>
      match digit_of c with
      | Some _ => false
      | None => negb (float_tail s)
      end
  end.

(** The integer part of the number grammar: [0], or a digit run that does
    not start with [0]. *)
Definition scan_nat (s : string) : option (N * string) :=
  match s with
  | EmptyString => None
  | String c s' =>
      if (N_of_ascii c =? 48)%N then
        if float_tail s' then None else Some (0%N, s')
      else
        match scan_digits s with
        | (Decimal.Nil, _) => None
        | (u, r) => if float_tail r then None else Some (N.of_uint u, r)
        end
  end.

Definition scan_int (s : string) : option (Z * string) :=
  match s with
  | EmptyString => None
  | String c s' =>
      if (N_of_ascii c =? 45)%N
      then (fun p : N * string => (Z.opp (Z.of_N (fst p)), snd p)) <$> scan_nat s'
      else (fun p : N * string => (Z.of_N (fst p), snd p)) <$> scan_nat s
  end.

Fixpoint strip_prefix (p s : string) : option string :=
  match p, s with
  | EmptyString, _ => Some s
  | String a p', String b s' => if Ascii.eqb a b then strip_prefix p' s' else None
  | String _ _, EmptyString => None
  end.

(** A JSON object read as a Python dictionary: pairs are stored in the
    order read, a repeated key overwrites. *)
Definition dict_of_pairs (l : list (string * json)) : list (string * json) :=
  fold_left (fun d p => dict_set (fst p) (snd p) d) l [].

Definition starts_with_code (n : N) (s : string) : option string :=
  match s with
  | String c s' => if (N_of_ascii c =? n)%N then Some s' else None
  | EmptyString => None
  end.

(** Modelled from the spec: the decoding of the wire form of the callback
    payload, which the module leaves to the receiver; here the JSON
    grammar, one value at a time ([fuel] bounds the number of nested
    calls). *)
Fixpoint parse_value (fuel : nat) (s : string) {struct fuel} : option (json * string) :=
  match fuel with
  | O => None
  | S fuel' =>
      match skip_ws s with
      | EmptyString => None
      | String c s' =>
          let n := N_of_ascii c in
          if (n =? 34)%N then
            (fun p : string * string => (JStr (fst p), snd p)) <$> scan_string s'
          else if (n =? 91)%N then
            match starts_with_code 93 (skip_ws s') with
            | Some r => Some (JArr [], r)
            | None =>
                (fun p : list json * string => (JArr (fst p), snd p))
                  <$> parse_items fuel' s'
            end
          else if (n =? 123)%N then
            match starts_with_code 125 (skip_ws s') with
            | Some r => Some (JObj [], r)
            | None =>
                (fun p : list (string * json) * string =>
                   (JObj (dict_of_pairs (fst p)), snd p))
                  <$> parse_members fuel' s'
            end
          else
            match strip_prefix "null" (String c s') with
            | Some r => Some (JNull, r)
            | None =>
            match strip_prefix "true" (String c s') with
            | Some r => Some (JBool true, r)
            | None =>
            match strip_prefix "false" (String c s') with
            | Some r => Some (JBool false, r)
            | None =>
                (fun p : Z * string => (JInt (fst p), snd p))
                  <$> scan_int (String c s')
            end end end
      end
  end
with parse_items (fuel : nat) (s : string) {struct fuel} : option (list json * string) :=
  match fuel with
  | O => None
  | S fuel' =>
      match parse_value fuel' s with
      | None => None
      | Some (v, r) =>
          match skip_ws r with
          | EmptyString => None
          | String c r' =>
              if (N_of_ascii c =? 44)%N then
                (fun p : list json * string => (v :: fst p, snd p))
                  <$> parse_items fuel' r'
              else if (N_of_ascii c =? 93)%N then Some ([v], r')
              else None
          end
      end
  end
with parse_members (fuel : nat) (s : string) {struct fuel}
  : option (list (string * json) * string) :=
  match fuel with
  | O => None
  | S fuel' =>
      match starts_with_code 34 (skip_ws s) with
      | None => None
      | Some r0 =>
          match scan_string r0 with
          | None => None
          | Some (k, r1) =>
              match starts_with_code 58 (skip_ws r1) with
              | None => None
              | Some r2 =>
                  match parse_value fuel' r2 with
                  | None => None
                  | Some (v, r3) =>
                      match skip_ws r3 with
                      | EmptyString => None
                      | String c r4 =>
                          if (N_of_ascii c =? 44)%N then
                            (fun p : list (string * json) * string =>
                               ((k, v) :: fst p, snd p))
                              <$> parse_members fuel' r4
                          else if (N_of_ascii c =? 125)%N then Some ([(k, v)], r4)
                          else None
                      end
                  end
              end
          end
      end
  end.

(** Modelled from the spec: the decoding of the wire form of the callback
    payload; [json.loads] reads one value, then nothing but white space. *)
Definition loads (s : string) : option json :=
  match parse_value (S (String.length s)) s with
  | Some (v, r) =>
      match skip_ws r with
      | EmptyString => Some v
      | String _ _ => None
      end
  | None => None
  end.

(** Modelled from the spec: the decoding of the wire form of the callback
    payload, from bytes to a value. *)
Definition decode (wire : list Byte.byte) : option json :=
  match utf8_decode wire with
  | Some s => loads s
  | None => None
  end.

(** [v] is read back from its encoding, whatever follows it, as soon as
    there is fuel for every character. *)
Definition reads_back (v : json) : Prop :=
  wf v ->
  forall fuel rest,
    String.length (dumps v) <= fuel -> int_stop rest = true ->
    parse_value fuel (dumps v +:+ rest) = Some (v, rest).

End Json.

Import Json.

(** ** Exceptions *)

(** The subclasses of [Exception] that the module can meet: whatever a
    boundary call raises, and the errors of Python's own operations. Every
    one of them is caught by [except Exception]; [except ClientError]
    catches the first only. *)
Inductive exn : Type :=
| ClientError (code : string)
| IndexError
| KeyError (key : string)
| TypeError (msg : string)
| NameError (name : string)
| OtherException (name : string).

Definition is_ClientError (e : exn) : bool :=
  match e with
  | ClientError _ => true
  | _ => false
  end.

Definition is_Exception (e : exn) : bool := true.

(** [repr(e)] *)
Definition repr (e : exn) : string :=
  match e with
  | ClientError code => "ClientError('" +:+ code +:+ "')"
  | IndexError => "IndexError('list index out of range')"
  | KeyError key => "KeyError('" +:+ key +:+ "')"
  | TypeError msg => "TypeError('" +:+ msg +:+ "')"
  | NameError name => "NameError('" +:+ name +:+ "')"
  | OtherException name => name +:+ "()"
  end.

(** ** Data exchanged with the provider *)

Record Credentials : Type := mkCredentials {
  AccessKeyId : string;
  SecretAccessKey : string;
  SessionToken : string
}.

(** [boto3.Session()] (the identity the function runs as) or a session
    built from assumed-role credentials. *)
Inductive Session : Type :=
| DefaultSession
| StsSession (credentials : Credentials).

(** An entry of [describe_trails(...)['trailList']]; a trail without a
    prefix has no ['S3KeyPrefix'] key. *)
Record Trail : Type := mkTrail {
  S3BucketName : string;
  S3KeyPrefix : option string;
  HomeRegion : string
}.

Record KeyMetadata : Type := mkKeyMetadata {
  KeyId : string;
  Arn : string
}.

(** An entry of [list_accounts()['Accounts']] (a Python [dict]) *)
Record Account : Type := mkAccount {
  Id : string;
  Email : string
}.

(** An entry of the roster: [{'AccountId': ..., 'Email': ...}] *)
Record AccountDetail : Type := mkAccountDetail {
  AccountId : string;
  MemberEmail : string
}.

Record UnprocessedAccount : Type := mkUnprocessed {
  UnprocessedAccountId : string;
  Result : string
}.

(** What [create_s3_destination] returns *)
Record DestinationProperties : Type := mkDestination {
  DestinationArn : string;
  KmsKeyArn : string
}.

(** What [http.request] returns, as far as the module reads it *)
Record HttpResponse : Type := mkHttpResponse {
  reason : option string
}.

(** The Lambda context object *)
Record Context : Type := mkContext {
  log_stream_name : string
}.

(** ** Boundary calls

    One constructor per request the module sends, with the session and the
    region of the client it is sent through and its keyword arguments. *)
Inductive call : Type :=
| GetAvailableRegions (service : string)
| StsGetCallerIdentity
| StsAssumeRole (RoleArn RoleSessionName : string)
| CloudTrailDescribeTrails (trailNameList : list string)
| S3CreateBucket (s : Session) (Bucket : string) (LocationConstraint : option string)
| S3PutBucketPolicy (s : Session) (Bucket Policy : string)
| S3PutBucketEncryption (s : Session) (Bucket SSEAlgorithm : string)
| KmsDescribeKey (s : Session) (region KeyId : string)
| KmsCreateKey (s : Session) (region Policy Description : string)
| KmsCreateAlias (s : Session) (region AliasName TargetKeyId : string)
| GdEnableOrganizationAdminAccount (s : Session) (region AdminAccountId : string)
| GdDisableOrganizationAdminAccount (s : Session) (region AdminAccountId : string)
| GdListDetectors (s : Session) (region : string)
| GdCreatePublishingDestination (s : Session) (region DetectorId DestinationType : string)
    (properties : DestinationProperties) (ClientToken : string)
| OrganizationsListAccounts (s : Session)
| GdCreateMembers (s : Session) (region DetectorId : string)
    (AccountDetails : list AccountDetail)
| GdUpdateOrganizationConfiguration (s : Session) (region DetectorId : string)
    (AutoEnable : bool)
| HttpPut (url : string) (body : list Byte.byte) (headers : list (string * string)).

(** The part of each answer that the module reads:
    [get_caller_identity()['Arn']], [assume_role(...)['Credentials']],
    [describe_trails(...)['trailList']], [describe_key(...)['KeyMetadata']['Arn']],
    [create_key(...)['KeyMetadata']], [list_detectors()['DetectorIds']],
    [list_accounts()['Accounts']], [create_members(...)['UnprocessedAccounts']]. *)
Definition resp_of (c : call) : Type :=
  match c with
  | GetAvailableRegions _ => list string
  | StsGetCallerIdentity => string
  | StsAssumeRole _ _ => Credentials
  | CloudTrailDescribeTrails _ => list Trail
  | KmsDescribeKey _ _ _ => string
  | KmsCreateKey _ _ _ _ => KeyMetadata
  | GdListDetectors _ _ => list string
  | OrganizationsListAccounts _ => list Account
  | GdCreateMembers _ _ _ _ => list UnprocessedAccount
  | HttpPut _ _ _ => HttpResponse
  | _ => unit
  end.

(** ** The failure records *)

(** An element of the local list [failed_accounts]. *)
Inductive failed_entry : Type :=
| UnprocessedAccounts (accounts : list UnprocessedAccount).

(** ** What a run leaves behind *)

Inductive Level : Type := DEBUG | INFO | ERROR.

(** One constructor per logging statement of the module, with the values
    the message is formatted from. *)
Inductive LogMsg : Type :=
| Log_boto3_version
| Log_botocore_version
| Log_region_error (region : string) (e : exn)
| Log_failed_master_header
| Log_failed_regions (regions : list string)
| Log_failed_members_header
| Log_failed_members (members : gmap string (list failed_entry))
| Log_status_code (reason : string)
| Log_cfnresponse_failed (e : exn)
| Log_assumed_session (account : string)
| Log_enabling_master (region : string)
| Log_skipping_already_enabled (account region : string)
| Log_master_error (region : string) (e : exn)
| Log_disabling_master (region : string)
| Log_skipping_already_disabled (account region : string)
| Log_unable_to_list_detectors (region : string)
| Log_detector_ids (ids : list string)
| Log_detector_id (id : string)
| Log_error_processing_account (account : Account)
| Log_region_is (region : string)
| Log_existing_key (alias : string)
| Log_creating_key (alias : string)
| Log_trail_response (trails : list Trail)
| Log_trail_bucket_name (name : string)
| Log_bucket_name (name : string)
| Log_bucket_prefix (prefix : string)
| Log_bucket_region (region : string)
| Log_bucket_account (account : string)
| Log_bucket_already_created (name : string)
| Log_skipping_bucket (name : string) (e : exn).

(** The functions of the module, with the arguments they are entered
    with. *)
Inductive Entered : Type :=
| In_cfnresponse (responseStatus : string) (responseData : json)
    (physicalResourceId : option string) (noEcho : bool)
| In_assume_role (aws_account_number role_name : string)
| In_enable_gd_master (region : string)
| In_disable_gd_master (region : string)
| In_enable_gd_member (session : Session) (region : string)
    (properties : DestinationProperties)
| In_create_kms_key (session : Session) (region : string)
| In_create_s3_destination (sts_session : Session).

Inductive Event : Type :=
| EvApi (c : call) (answer : exn + resp_of c)
| EvLog (level : Level) (msg : LogMsg)
| EvEnter (f : Entered).

(** ** Program state and the monad of the module's functions *)

(** The outside world and the two module-level accumulators. *)
Record State (W : Type) : Type := mkState {
  world : W;
  failed_regions : list string;
  failed_members : gmap string (list failed_entry)
}.
Arguments mkState {W} _ _ _.
Arguments world {W} _.
Arguments failed_regions {W} _.
Arguments failed_members {W} _.

(** The result of running a function: what it returned or raised, the
    state it left, and what it did, oldest first. *)
Record Outcome (W A : Type) : Type := mkOutcome {
  res : exn + A;
  final : State W;
  events : list Event
}.
Arguments mkOutcome {W A} _ _ _.
Arguments res {W A} _.
Arguments final {W A} _.
Arguments events {W A} _.

Definition M (W A : Type) : Type := State W -> Outcome W A.

(** The surroundings of the module: the two environment variables read at
    import time and the provider behind the boundary calls. *)
Class Env (W : Type) : Type := mkEnv {
  gdmaster_account_number : string;
  role_to_assume : string;
  oracle : forall c : call, W -> (exn + resp_of c) * W
}.

Section Monad.
Context {W : Type}.

Definition ret {A} (a : A) : M W A :=
  fun s => mkOutcome (inr a) s [].

Definition raise {A} (e : exn) : M W A :=
  fun s => mkOutcome (inl e) s [].

Definition bind {A B} (m : M W A) (k : A -> M W B) : M W B :=
  fun s =>
    match m s with
    | mkOutcome (inl e) s' t => mkOutcome (inl e) s' t
    | mkOutcome (inr a) s' t =>
        match k a s' with
        | mkOutcome r s'' t' => mkOutcome r s'' (t ++ t')
        end
    end.

(** Runs [m] and hands over how it ended instead of raising. *)
Definition attempt {A} (m : M W A) : M W (exn + A) :=
  fun s =>
    match m s with
    | mkOutcome r s' t => mkOutcome (inr r) s' t
    end.

Definition emit (ev : Event) : M W unit :=
  fun s => mkOutcome (inr tt) s [ev].

Definition log (level : Level) (msg : LogMsg) : M W unit := emit (EvLog level msg).

Definition enter (f : Entered) : M W unit := emit (EvEnter f).

(** A value or an error computed without effect *)
Definition lift {A} (r : exn + A) : M W A :=
  fun s => mkOutcome r s [].

Definition get_failed_regions : M W (list string) :=
  fun s => mkOutcome (inr (failed_regions s)) s [].

Definition set_failed_regions (l : list string) : M W unit :=
  fun s => mkOutcome (inr tt) (mkState (world s) l (failed_members s)) [].

Definition get_failed_members : M W (gmap string (list failed_entry)) :=
  fun s => mkOutcome (inr (failed_members s)) s [].

Definition set_failed_members (m : gmap string (list failed_entry)) : M W unit :=
  fun s => mkOutcome (inr tt) (mkState (world s) (failed_regions s) m) [].

(** A boundary call: the oracle answers and moves the world on. *)
Definition invoke `{Env W} (c : call) : M W (resp_of c) :=
  fun s =>
    match oracle c (world s) with
    | (answer, w) =>
        mkOutcome answer (mkState w (failed_regions s) (failed_members s))
                  [EvApi c answer]
    end.

End Monad.

Declare Scope prog_scope.
Delimit Scope prog_scope with prog.
Notation "x <- m ;; k" := (bind m (fun x => k))
  (at level 100, m at next level, k at level 200, right associativity) : prog_scope.
Notation "m ;; k" := (bind m (fun _ => k))
  (at level 100, k at level 200, right associativity) : prog_scope.
Open Scope prog_scope.

Section Control.
Context {W : Type}.

(** [try: body  except <handles> as e: handler e] *)
Definition try_except {A} (body : M W A) (handles : exn -> bool)
    (handler : exn -> M W A) : M W A :=
  r <- attempt body;;
  match r with
  | inr a => ret a
  | inl e => if handles e then handler e else raise e
  end.

(** A [try] block whose statements update a local variable of type [L]:
    the handler sees the value the variable had when the exception was
    raised. *)
Fixpoint try_block {L} (stmts : list (L -> M W L)) (l : L)
    (handles : exn -> bool) (handler : exn -> L -> M W L) : M W L :=
  match stmts with
  | [] => ret l
  | stmt :: rest =>
      r <- attempt (stmt l);;
      match r with
      | inr l' => try_block rest l' handles handler
      | inl e => if handles e then handler e l else raise e
      end
  end.

(** [for x in l: body x] *)
Fixpoint for_each {A} (l : list A) (body : A -> M W unit) : M W unit :=
  match l with
  | [] => ret tt
  | x :: l' => body x;; for_each l' body
  end.

(** [l[i]] *)
Definition index {A} (l : list A) (i : nat) : M W A :=
  match nth_error l i with
  | Some x => ret x
  | None => raise IndexError
  end.

(** [d[k]] on a response field that may be missing *)
Definition subscript {A} (field : option A) (key : string) : M W A :=
  match field with
  | Some x => ret x
  | None => raise (KeyError key)
  end.

End Control.

(** Reading a local variable that a loop may have left unbound *)
Definition local_var {W A} (v : option A) (name : string) : M W A :=
  match v with
  | Some x => ret x
  | None => raise (NameError name)
  end.

(** [x in l] for a list of strings *)
Definition py_in (x : string) (l : list string) : bool :=
  existsb (String.eqb x) l.

(** [a or b] for an optional string: [None] and [''] are false. *)
Definition py_or (a : option string) (b : string) : string :=
  match a with
  | None => b
  | Some EmptyString => b
  | Some s => s
  end.

(** ** The module *)

Section Module.
Context {W : Type} `{Env W}.

Definition py_split (s sep : string) : M W (list string) :=
  match PyStr.split s sep with
  | Some l => ret l
  | None => raise (OtherException "ValueError")
  end.

(** ['Status code: ' + response.reason] *)
Definition str_concat (a : string) (b : option string) : M W string :=
  match b with
  | Some s => ret (a +:+ s)
  | None =>
      raise (TypeError ("can only concatenate str (not "
                          +:+ String Json.quote "NoneType"
                          +:+ String Json.quote ") to str"))
  end.

(** The dictionary [responseBody] that [cfnresponse] fills in, key by
    key. *)
Definition responseBody_of (event : gmap string string) (context : Context)
    (responseStatus : string) (responseData : json)
    (physicalResourceId : option string) (noEcho : bool)
  : exn + list (string * json) :=
  let ls := log_stream_name context in
  let responseBody := [] in
  let responseBody := dict_set "Status" (JStr responseStatus) responseBody in
  let responseBody :=
    dict_set "Reason"
      (JStr ("See the details in CloudWatch Log Stream: " +:+ ls)) responseBody in
  let responseBody :=
    dict_set "PhysicalResourceId" (JStr (py_or physicalResourceId ls)) responseBody in
  match event !! "StackId" with
  | None => inl (KeyError "StackId")
  | Some stack_id =>
  let responseBody := dict_set "StackId" (JStr stack_id) responseBody in
  match event !! "RequestId" with
  | None => inl (KeyError "RequestId")
  | Some request_id =>
  let responseBody := dict_set "RequestId" (JStr request_id) responseBody in
  match event !! "LogicalResourceId" with
  | None => inl (KeyError "LogicalResourceId")
  | Some logical_id =>
  let responseBody := dict_set "LogicalResourceId" (JStr logical_id) responseBody in
  let responseBody := dict_set "NoEcho" (JBool noEcho) responseBody in
  let responseBody := dict_set "Data" responseData responseBody in
  inr responseBody
  end end end.

(** The defaults of the optional parameters of [cfnresponse] *)
Definition default_physicalResourceId : option string := None.
Definition default_noEcho : bool := false.

Definition cfnresponse (event : gmap string string) (context : Context)
    (responseStatus : string) (responseData : json)
    (physicalResourceId : option string) (noEcho : bool) : M W unit :=
  enter (In_cfnresponse responseStatus responseData physicalResourceId noEcho);;
  responseBody <-
    lift (responseBody_of event context responseStatus responseData
            physicalResourceId noEcho);;
  let json_responseBody := dumps (JObj responseBody) in
  let headers :=
    [("content-type", EmptyString);
     ("content-length", int_str (Z.of_nat (String.length json_responseBody)))] in
  try_except
    (url <- subscript (event !! "ResponseURL") "ResponseURL";;
     response <- invoke (HttpPut url (utf8_encode json_responseBody) headers);;
     line <- str_concat "Status code: " (reason response);;
     log DEBUG (Log_status_code line))
    is_Exception
    (fun e => log ERROR (Log_cfnresponse_failed e)).

Definition assume_role (aws_account_number role_name : string) : M W Session :=
  enter (In_assume_role aws_account_number role_name);;
  arn <- invoke StsGetCallerIdentity;;
  parts <- py_split arn ":";;
  partition <- index parts 1;;
  response <-
    invoke (StsAssumeRole
              ("arn:" +:+ partition +:+ ":iam::" +:+ aws_account_number
                 +:+ ":role/" +:+ role_name)
              "EnableGuardDuty");;
  let sts_session := StsSession response in
  log DEBUG (Log_assumed_session aws_account_number);;
  ret sts_session.

Definition enable_gd_master (region : string) : M W unit :=
  enter (In_enable_gd_master region);;
  log INFO (Log_enabling_master region);;
  try_except
    (invoke (GdEnableOrganizationAdminAccount DefaultSession region
               gdmaster_account_number);;
     ret tt)
    is_Exception
    (fun e =>
       log INFO (Log_skipping_already_enabled gdmaster_account_number region);;
       log INFO (Log_master_error region e)).

Definition disable_gd_master (region : string) : M W unit :=
  enter (In_disable_gd_master region);;
  log INFO (Log_disabling_master region);;
  try_except
    (invoke (GdDisableOrganizationAdminAccount DefaultSession region
               gdmaster_account_number);;
     ret tt)
    is_Exception
    (fun e =>
       l <- get_failed_regions;;
       set_failed_regions (l ++ [region]);;
       log INFO (Log_skipping_already_disabled gdmaster_account_number region)).

(** The loop of [enable_gd_member] over [accounts['Accounts']]: it fills
    [details] and leaves the loop variable [account] bound to the last
    entry (unbound when there is none). *)
Fixpoint roster_loop (accounts : list Account) (details : list AccountDetail)
    (account : option Account) : list AccountDetail * option Account :=
  match accounts with
  | [] => (details, account)
  | a :: rest =>
      let details :=
        if negb (String.eqb (Id a) gdmaster_account_number)
        then details ++ [mkAccountDetail (Id a) (Email a)]
        else details in
      roster_loop rest details (Some a)
  end.

(** The dictionary display [{account: repr(e)}]: [account] is an entry of
    [accounts['Accounts']], a [dict], and a [dict] cannot be a key. *)
Definition account_keyed_dict (account : Account) (value : string)
  : exn + failed_entry :=
  inl (TypeError "unhashable type: 'dict'").

Definition enable_gd_member (session : Session) (region : string)
    (properties : DestinationProperties) : M W unit :=
  enter (In_enable_gd_member session region properties);;
  listed <-
    try_except
      (detector_ids <- invoke (GdListDetectors session region);;
       ret (Some detector_ids))
      is_Exception
      (fun ex => log INFO (Log_unable_to_list_detectors region);; ret None);;
  match listed with
  | None => ret tt
  | Some detector_ids =>
      log DEBUG (Log_detector_ids detector_ids);;
      detector_id <- index detector_ids 0;;
      log DEBUG (Log_detector_id detector_id);;
      invoke (GdCreatePublishingDestination session region detector_id "S3"
                properties detector_id);;
      accounts <- invoke (OrganizationsListAccounts session);;
      let looped := roster_loop accounts [] None in
      let details := fst looped in
      let account := snd looped in
      failed_accounts <-
        try_block
          [ (fun failed_accounts =>
               unprocessed_accounts <-
                 invoke (GdCreateMembers session region detector_id details);;
               if (0 <? length unprocessed_accounts)%nat
               then ret (failed_accounts ++ [UnprocessedAccounts unprocessed_accounts])
               else ret failed_accounts);
            (fun failed_accounts =>
               invoke (GdUpdateOrganizationConfiguration session region
                         detector_id true);;
               ret failed_accounts) ]
          []
          is_ClientError
          (fun e failed_accounts =>
             account <- local_var account "account";;
             log DEBUG (Log_error_processing_account account);;
             entry <- lift (account_keyed_dict account (repr e));;
             ret (failed_accounts ++ [entry]));;
      log DEBUG (Log_region_is region);;
      match failed_accounts with
      | [] => ret tt
      | _ :: _ =>
          m <- get_failed_members;;
          set_failed_members (<["region" := failed_accounts]> m)
      end
  end.

Definition key_alias : string := "alias/controltower/guardduty".

Definition strs (l : list string) : json := JArr (map JStr l).

(** The policy of the key, before [json.dumps] *)
Definition key_policy : json :=
  JObj [
    ("Version", JStr "2012-10-17");
    ("Id", JStr "auto-controltower-guardduty");
    ("Statement", JArr [
       JObj [
         ("Sid", JStr "Enable IAM User Permissions");
         ("Effect", JStr "Allow");
         ("Principal", JObj [
            ("AWS", JStr ("arn:aws:iam::" +:+ gdmaster_account_number +:+ ":root"))]);
         ("Action", JStr "kms:*");
         ("Resource", JStr "*")];
       JObj [
         ("Sid", JStr "Allow access for Key Administrators");
         ("Effect", JStr "Allow");
         ("Principal", JObj [
            ("AWS", JStr ("arn:aws:iam::" +:+ gdmaster_account_number
                            +:+ ":role/AWSControlTowerExecution"))]);
         ("Action", strs [
            "kms:Create*"; "kms:Describe*"; "kms:Enable*"; "kms:List*";
            "kms:Put*"; "kms:Update*"; "kms:Revoke*"; "kms:Disable*";
            "kms:Get*"; "kms:Delete*"; "kms:TagResource"; "kms:UntagResource";
            "kms:ScheduleKeyDeletion"; "kms:CancelKeyDeletion"]);
         ("Resource", JStr "*")];
       JObj [
         ("Sid", JStr "Allow use of the key");
         ("Effect", JStr "Allow");
         ("Principal", JObj [("Service", JStr "guardduty.amazonaws.com")]);
         ("Action", strs [
            "kms:Encrypt"; "kms:Decrypt"; "kms:ReEncrypt*";
            "kms:GenerateDataKey*"; "kms:DescribeKey"]);
         ("Resource", JStr "*")];
       JObj [
         ("Sid", JStr "Allow attachment of persistent resources");
         ("Effect", JStr "Allow");
         ("Principal", JObj [("Service", JStr "guardduty.amazonaws.com")]);
         ("Action", strs ["kms:CreateGrant"; "kms:ListGrants"; "kms:RevokeGrant"]);
         ("Resource", JStr "*");
         ("Condition", JObj [
            ("Bool", JObj [("kms:GrantIsForAWSResource", JStr "true")])])]])].

Definition create_kms_key (session : Session) (region : string) : M W string :=
  enter (In_create_kms_key session region);;
  try_except
    (key_arn <- invoke (KmsDescribeKey session region key_alias);;
     log INFO (Log_existing_key key_alias);;
     ret key_arn)
    is_Exception
    (fun e =>
       log INFO (Log_creating_key key_alias);;
       let key_policy := dumps key_policy in
       key_result <-
         invoke (KmsCreateKey session region key_policy
                   "The key to encrypt/decrypt GuardDuty findings");;
       invoke (KmsCreateAlias session region key_alias (KeyId key_result));;
       ret (Arn key_result)).

Definition allowed_regions : list string :=
  [ "eu-west-1"; "us-west-1"; "us-west-2"; "ap-south-1"; "ap-southeast-1";
    "ap-southeast-2"; "ap-northeast-1"; "sa-east-1"; "cn-north-1";
    "eu-central-1" ].

(** The policy of the destination bucket, before [json.dumps] *)
Definition bucket_policy (bucket_name kms_key_arn : string) : json :=
  let guardduty := JObj [("Service", JStr "guardduty.amazonaws.com")] in
  JObj [
    ("Version", JStr "2012-10-17");
    ("Statement", JArr [
       JObj [
         ("Sid", JStr "AWSBucketPermissionsCheck");
         ("Effect", JStr "Allow");
         ("Principal", guardduty);
         ("Action", strs ["s3:GetBucketAcl"; "s3:ListBucket"; "s3:GetBucketLocation"]);
         ("Resource", JStr ("arn:aws:s3:::" +:+ bucket_name))];
       JObj [
         ("Sid", JStr "AWSBucketDelivery");
         ("Effect", JStr "Allow");
         ("Principal", guardduty);
         ("Action", JStr "s3:PutObject");
         ("Resource", JStr ("arn:aws:s3:::" +:+ bucket_name +:+ "/*"))];
       JObj [
         ("Sid", JStr "Deny unencrypted object uploads. This is optional");
         ("Effect", JStr "Deny");
         ("Principal", guardduty);
         ("Action", JStr "s3:PutObject");
         ("Resource", JStr ("arn:aws:s3:::" +:+ bucket_name +:+ "/*"));
         ("Condition", JObj [
            ("StringNotEquals", JObj [
               ("s3:x-amz-server-side-encryption", JStr "aws:kms")])])];
       JObj [
         ("Sid", JStr "Deny incorrect encryption header. This is optional");
         ("Effect", JStr "Deny");
         ("Principal", guardduty);
         ("Action", JStr "s3:PutObject");
         ("Resource", JStr ("arn:aws:s3:::" +:+ bucket_name +:+ "/*"));
         ("Condition", JObj [
            ("StringNotEquals", JObj [
               ("s3:x-amz-server-side-encryption-aws-kms-key-id",
                JStr kms_key_arn)])])];
       JObj [
         ("Sid", JStr "Deny non-HTTPS access");
         ("Effect", JStr "Deny");
         ("Principal", JStr "*");
         ("Action", JStr "s3:*");
         ("Resource", JStr ("arn:aws:s3:::" +:+ bucket_name +:+ "/*"));
         ("Condition", JObj [
            ("Bool", JObj [("aws:SecureTransport", JStr "false")])])]])].

Definition create_s3_destination (sts_session : Session)
  : M W DestinationProperties :=
  enter (In_create_s3_destination sts_session);;
  trailList <-
    invoke (CloudTrailDescribeTrails ["aws-controltower-BaselineCloudTrail"]);;
  log DEBUG (Log_trail_response trailList);;
  trail <- index trailList 0;;
  let trail_bucket_name := S3BucketName trail in
  let bucket_name := PyStr.replace trail_bucket_name "logs" "guardduty" in
  bucket_prefix <- subscript (S3KeyPrefix trail) "S3KeyPrefix";;
  let bucket_region := HomeRegion trail in
  segments <- py_split trail_bucket_name "-";;
  bucket_account <- index segments 3;;
  log DEBUG (Log_trail_bucket_name trail_bucket_name);;
  log DEBUG (Log_bucket_name bucket_name);;
  log DEBUG (Log_bucket_prefix bucket_prefix);;
  log DEBUG (Log_bucket_region bucket_region);;
  log DEBUG (Log_bucket_account bucket_account);;
  log_account_session <- assume_role bucket_account role_to_assume;;
  let s3_client := log_account_session in
  kms_key_arn <-
    try_except
      (if py_in bucket_region allowed_regions then
         invoke (S3CreateBucket s3_client bucket_name (Some bucket_region));;
         create_kms_key sts_session bucket_region
       else if PyStr.startswith bucket_region "eu" then
         invoke (S3CreateBucket s3_client bucket_name (Some "EU"));;
         create_kms_key sts_session bucket_region
       else
         invoke (S3CreateBucket s3_client bucket_name None);;
         create_kms_key sts_session "us-east-1")
      is_Exception
      (fun e =>
         log INFO (Log_bucket_already_created bucket_name);;
         log ERROR (Log_skipping_bucket bucket_name e);;
         ret EmptyString);;
  let bucket_policy := dumps (bucket_policy bucket_name kms_key_arn) in
  invoke (S3PutBucketPolicy s3_client bucket_name bucket_policy);;
  invoke (S3PutBucketEncryption s3_client bucket_name "AES256");;
  let destination_properties :=
    mkDestination ("arn:aws:s3:::" +:+ bucket_name) kms_key_arn in
  ret destination_properties.

(** The part of [handler] before the loop over the regions *)
Definition handler_setup : M W (list string * Session * DestinationProperties) :=
  log DEBUG Log_boto3_version;;
  log DEBUG Log_botocore_version;;
  guardduty_regions <- invoke (GetAvailableRegions "guardduty");;
  gdmaster_account_session <- assume_role gdmaster_account_number role_to_assume;;
  bucket_arn <- create_s3_destination gdmaster_account_session;;
  ret (guardduty_regions, gdmaster_account_session, bucket_arn).

(** The body of the loop of [handler], for one region *)
Definition region_turn (gdmaster_account_session : Session)
    (bucket_arn : DestinationProperties) (region : string) : M W unit :=
  try_except
    (enable_gd_master region;;
     enable_gd_member gdmaster_account_session region bucket_arn)
    is_Exception
    (fun e => log ERROR (Log_region_error region e)).

(** The loop of [handler] over the regions *)
Definition handler_regions (guardduty_regions : list string)
    (gdmaster_account_session : Session) (bucket_arn : DestinationProperties)
  : M W unit :=
  for_each guardduty_regions (region_turn gdmaster_account_session bucket_arn).

(** The part of [handler] behind the loop *)
Definition handler_report (event : gmap string string) (context : Context)
  : M W unit :=
  let responseValue := 120%Z in
  let responseData := [] in
  let responseData := dict_set "Data" (JInt responseValue) responseData in
  cfnresponse event context "SUCCESS" (JObj responseData)
    default_physicalResourceId default_noEcho;;
  regions <- get_failed_regions;;
  match regions with
  | [] => ret tt
  | _ :: _ =>
      log INFO Log_failed_master_header;;
      log INFO (Log_failed_regions regions)
  end;;
  members <- get_failed_members;;
  if bool_decide (members = ∅) then ret tt
  else
    log INFO Log_failed_members_header;;
    log INFO (Log_failed_members members).

Definition handler (event : gmap string string) (context : Context) : M W unit :=
  setup <- handler_setup;;
  let '(guardduty_regions, gdmaster_account_session, bucket_arn) := setup in
  handler_regions guardduty_regions gdmaster_account_session bucket_arn;;
  handler_report event context.

End Module.

(** ** Reading a run *)

(** The events of a run that [f] recognises, in order. *)
Definition pick {X} (f : Event -> option X) (t : list Event) : list X := omap f t.

(** Entries into [cfnresponse], with the arguments passed. *)
Definition callback (ev : Event) : option (string * json * option string * bool) :=
  match ev with
  | EvEnter (In_cfnresponse status data physical noEcho) =>
      Some (status, data, physical, noEcho)
  | _ => None
  end.

(** Regions [enable_gd_master] is entered with. *)
Definition master_call (ev : Event) : option string :=
  match ev with
  | EvEnter (In_enable_gd_master region) => Some region
  | _ => None
  end.

(** Regions [enable_gd_member] is entered with. *)
Definition member_call (ev : Event) : option string :=
  match ev with
  | EvEnter (In_enable_gd_member _ region _) => Some region
  | _ => None
  end.

(** Regions of the [enable_organization_admin_account] requests, and how
    each was answered. *)
Definition admin_request (ev : Event) : option (string * (exn + unit)) :=
  match ev with
  | EvApi (GdEnableOrganizationAdminAccount _ region _) answer => Some (region, answer)
  | _ => None
  end.

(** Answers to [list_detectors], with the region asked. *)
Definition detector_listing (ev : Event) : option (string * (exn + list string)) :=
  match ev with
  | EvApi (GdListDetectors _ region) answer => Some (region, answer)
  | _ => None
  end.

(** Regions of the [create_publishing_destination] requests. *)
Definition publishing_request (ev : Event) : option string :=
  match ev with
  | EvApi (GdCreatePublishingDestination _ region _ _ _ _) _ => Some region
  | _ => None
  end.

(** Answers to [list_accounts]. *)
Definition account_listing (ev : Event) : option (exn + list Account) :=
  match ev with
  | EvApi (OrganizationsListAccounts _) answer => Some answer
  | _ => None
  end.

(** The [create_members] requests: region, roster, and the answer. *)
Definition member_request (ev : Event)
  : option (string * list AccountDetail * (exn + list UnprocessedAccount)) :=
  match ev with
  | EvApi (GdCreateMembers _ region _ details) answer => Some (region, details, answer)
  | _ => None
  end.

(** Answers to [describe_trails]. *)
Definition trail_listing (ev : Event) : option (exn + list Trail) :=
  match ev with
  | EvApi (CloudTrailDescribeTrails _) answer => Some answer
  | _ => None
  end.

(** The [create_bucket] requests: bucket name and location constraint. *)
Definition bucket_creation (ev : Event) : option (string * option string) :=
  match ev with
  | EvApi (S3CreateBucket _ bucket constraint) _ => Some (bucket, constraint)
  | _ => None
  end.

(** The bucket named in any S3 request. *)
Definition s3_bucket (ev : Event) : option string :=
  match ev with
  | EvApi (S3CreateBucket _ bucket _) _ => Some bucket
  | EvApi (S3PutBucketPolicy _ bucket _) _ => Some bucket
  | EvApi (S3PutBucketEncryption _ bucket _) _ => Some bucket
  | _ => None
  end.

(** Answers to [describe_key], with the key id asked for. *)
Definition key_lookup (ev : Event) : option (string * (exn + string)) :=
  match ev with
  | EvApi (KmsDescribeKey _ _ key_id) answer => Some (key_id, answer)
  | _ => None
  end.

(** Regions of the [create_key] requests. *)
Definition key_creation (ev : Event) : option string :=
  match ev with
  | EvApi (KmsCreateKey _ region _ _) _ => Some region
  | _ => None
  end.

(** The HTTP PUT requests: URL, body and headers. *)
Definition http_put (ev : Event)
  : option (string * list Byte.byte * list (string * string)) :=
  match ev with
  | EvApi (HttpPut url body headers) _ => Some (url, body, headers)
  | _ => None
  end.

(** ** Concrete surroundings, used to run the module on examples *)

Module Scenario.

Definition master_id : string := "111111111111".

Definition trail_bucket : string := "aws-controltower-logs-123456789012-us-east-1".

Definition accounts : list Account :=
  [ mkAccount "222222222222" "dev@example.com";
    mkAccount master_id "security@example.com";
    mkAccount "333333333333" "prod@example.com" ].

(** A provider that answers every request favourably: two regions, a trail
    homed in [home], an existing key, one detector per region. *)
Definition fine (home : string) (c : call) : exn + resp_of c :=
  match c return exn + resp_of c with
  | GetAvailableRegions _ => inr ["us-east-1"; "eu-west-1"]
  | StsGetCallerIdentity => inr "arn:aws:sts::999999999999:assumed-role/enabler/run"
  | StsAssumeRole _ _ => inr (mkCredentials "AKIA" "secret" "token")
  | CloudTrailDescribeTrails _ => inr [mkTrail trail_bucket (Some "o-abc") home]
  | KmsDescribeKey _ _ _ => inr "arn:aws:kms:us-east-1:111111111111:key/existing"
  | KmsCreateKey _ _ _ _ =>
      inr (mkKeyMetadata "new" "arn:aws:kms:us-east-1:111111111111:key/new")
  | GdListDetectors _ _ => inr ["detector-1"]
  | OrganizationsListAccounts _ => inr accounts
  | GdCreateMembers _ _ _ _ => inr []
  | HttpPut _ _ _ => inr (mkHttpResponse (Some "OK"))
  | _ => inr tt
  end.

(** Every region answers [list_detectors] with an empty list. *)
Definition no_detector (c : call) : exn + resp_of c :=
  match c as c0 return exn + resp_of c0 with
  | GdListDetectors _ _ => inr []
  | other => fine "us-east-1" other
  end.

(** [create_members] is refused with a client error. *)
Definition members_refused (c : call) : exn + resp_of c :=
  match c as c0 return exn + resp_of c0 with
  | GdCreateMembers _ _ _ _ => inl (ClientError "BadRequestException")
  | other => fine "us-east-1" other
  end.

(** [create_members] reports one account as unprocessed. *)
Definition member_unprocessed (c : call) : exn + resp_of c :=
  match c as c0 return exn + resp_of c0 with
  | GdCreateMembers _ _ _ _ => inr [mkUnprocessed "333333333333" "already a member"]
  | other => fine "us-east-1" other
  end.

(** [enable_organization_admin_account] is refused in every region. *)
Definition master_refused (c : call) : exn + resp_of c :=
  match c as c0 return exn + resp_of c0 with
  | GdEnableOrganizationAdminAccount _ _ _ => inl (ClientError "AccessDeniedException")
  | other => fine "us-east-1" other
  end.

(** The surroundings in which the provider answers by [answers], whatever
    happened before. *)
Definition env (answers : forall c : call, exn + resp_of c) : Env unit :=
  mkEnv unit master_id "AWSControlTowerExecution" (fun c w => (answers c, w)).

Definition start : State unit := mkState tt [] ∅.

(** The provider that answers everything favourably, with the trail homed
    in [us-east-1]. *)
Definition healthy : Env unit := env (fine "us-east-1").

Definition event : gmap string string :=
  <["ResponseURL" := "https://cloudformation.example/response"]>
  (<["StackId" := "arn:aws:cloudformation:us-east-1:111111111111:stack/gd/1"]>
  (<["RequestId" := "req-1"]>
  (<["LogicalResourceId" := "EnableGuardDuty"]> ∅))).

Definition context : Context := mkContext "2026/11/04/[$LATEST]abcdef".

(** The payload [cfnresponse] builds for [event] and [context] when the
    handler reports. *)
Definition response_body : list (string * json) :=
  [ ("Status", JStr "SUCCESS");
    ("Reason", JStr "See the details in CloudWatch Log Stream: 2026/11/04/[$LATEST]abcdef");
    ("PhysicalResourceId", JStr "2026/11/04/[$LATEST]abcdef");
    ("StackId", JStr "arn:aws:cloudformation:us-east-1:111111111111:stack/gd/1");
    ("RequestId", JStr "req-1");
    ("LogicalResourceId", JStr "EnableGuardDuty");
    ("NoEcho", JBool false);
    ("Data", JObj [("Data", JInt 120)]) ].

Definition master_session : Session := StsSession (mkCredentials "AKIA" "secret" "token").

Definition destination : DestinationProperties :=
  mkDestination "arn:aws:s3:::aws-controltower-guardduty-123456789012-us-east-1"
                "arn:aws:kms:us-east-1:111111111111:key/existing".

(** The caller identity has no colon in it. *)
Definition odd_identity (c : call) : exn + resp_of c :=
  match c as c0 return exn + resp_of c0 with
  | StsGetCallerIdentity => inr "enabler"
  | other => fine "us-east-1" other
  end.

(** No key has the alias yet. *)
Definition key_missing (c : call) : exn + resp_of c :=
  match c as c0 return exn + resp_of c0 with
  | KmsDescribeKey _ _ _ => inl (ClientError "NotFoundException")
  | other => fine "us-east-1" other
  end.

(** The destination bucket exists already. *)
Definition bucket_exists (c : call) : exn + resp_of c :=
  match c as c0 return exn + resp_of c0 with
  | S3CreateBucket _ _ _ => inl (ClientError "BucketAlreadyOwnedByYou")
  | other => fine "us-east-1" other
  end.

(** The trail delivers to a bucket whose name has no ["logs"] in it. *)
Definition plain_trail (c : call) : exn + resp_of c :=
  match c as c0 return exn + resp_of c0 with
  | CloudTrailDescribeTrails _ =>
      inr [mkTrail "org-audit-trail-123456789012" (Some "o-abc") "us-east-1"]
  | other => fine "us-east-1" other
  end.

(** The trail has no key prefix. *)
Definition no_prefix (c : call) : exn + resp_of c :=
  match c as c0 return exn + resp_of c0 with
  | CloudTrailDescribeTrails _ => inr [mkTrail trail_bucket None "us-east-1"]
  | other => fine "us-east-1" other
  end.

(** The role cannot be assumed. *)
Definition role_refused (c : call) : exn + resp_of c :=
  match c as c0 return exn + resp_of c0 with
  | StsAssumeRole _ _ => inl (ClientError "AccessDenied")
  | other => fine "us-east-1" other
  end.

(** The HTTP PUT fails. *)
Definition put_fails (c : call) : exn + resp_of c :=
  match c as c0 return exn + resp_of c0 with
  | HttpPut _ _ _ => inl (OtherException "MaxRetryError")
  | other => fine "us-east-1" other
  end.

(** [list_detectors] is refused. *)
Definition detectors_refused (c : call) : exn + resp_of c :=
  match c as c0 return exn + resp_of c0 with
  | GdListDetectors _ _ => inl (ClientError "AccessDeniedException")
  | other => fine "us-east-1" other
  end.

(** [create_members] reports an account, then
    [update_organization_configuration] is refused. *)
Definition autoenable_refused (c : call) : exn + resp_of c :=
  match c as c0 return exn + resp_of c0 with
  | GdCreateMembers _ _ _ _ => inr [mkUnprocessed "333333333333" "already a member"]
  | GdUpdateOrganizationConfiguration _ _ _ _ =>
      inl (ClientError "BadRequestException")
  | other => fine "us-east-1" other
  end.

(** [create_members] fails with an error that is not a client error. *)
Definition members_timeout (c : call) : exn + resp_of c :=
  match c as c0 return exn + resp_of c0 with
  | GdCreateMembers _ _ _ _ => inl (OtherException "ReadTimeoutError")
  | other => fine "us-east-1" other
  end.

(** [disable_organization_admin_account] is refused. *)
Definition disable_refused (c : call) : exn + resp_of c :=
  match c as c0 return exn + resp_of c0 with
  | GdDisableOrganizationAdminAccount _ _ _ => inl (ClientError "AccessDeniedException")
  | other => fine "us-east-1" other
  end.

(** The publishing destination is refused. *)
Definition destination_refused (c : call) : exn + resp_of c :=
  match c as c0 return exn + resp_of c0 with
  | GdCreatePublishingDestination _ _ _ _ _ _ => inl (ClientError "BadRequestException")
  | other => fine "us-east-1" other
  end.

(** An event without its stack identifier. *)
Definition event_without_stack : gmap string string := delete "StackId" event.

End Scenario.

(** ** Properties that hold along a run *)

(** A relation between the state a computation starts in, the state it
    leaves and the events it produces. *)
Definition Step (W : Type) : Type := State W -> State W -> list Event -> Prop.

(** Relations that hold of doing nothing and of doing one thing after
    another. *)
Class Stable {W} (R : Step W) : Prop := {
  stable_nil : forall s, R s s [];
  stable_app : forall s s' s'' t t', R s s' t -> R s' s'' t' -> R s s'' (t ++ t')
}.

(** [m] satisfies [R] from every state. *)
Definition respects {W A} (R : Step W) (m : M W A) : Prop :=
  forall s, R s (final (m s)) (events (m s)).

(** No event that [f] recognises. *)
Definition silent {W X} (f : Event -> option X) : Step W :=
  fun _ _ t => pick f t = [].

(** The part [g] of the state is left as it was. *)
Definition keeps {W X} (g : State W -> X) : Step W :=
  fun s s' _ => g s' = g s.

(** The roster [enable_gd_member] submits for a given account listing *)
Definition roster `{Env W} (accounts : list Account) : list AccountDetail :=
  fst (roster_loop accounts [] None).

(** ** Further readings of strings and of a run *)

(** [sep.join(l)] *)
Fixpoint py_join (sep : string) (l : list string) : string :=
  match l with
  | [] => EmptyString
  | x :: l' =>
      match l' with
      | [] => x
      | _ :: _ => x +:+ sep +:+ py_join sep l'
      end
  end.

(** [old in s]: [old] starts at some position of [s]. *)
Fixpoint py_contains (old s : string) : bool :=
  match s with
  | EmptyString => String.prefix old EmptyString
  | String _ s' => String.prefix old s || py_contains old s'
  end.

(** Every character is below U+0080. *)
Fixpoint ascii_only (s : string) : bool :=
  match s with
  | EmptyString => true
  | String c s' => (N_of_ascii c <? 128)%N && ascii_only s'
  end.

(** Every request sent, in order, without its answer. *)
Definition request (ev : Event) : option call :=
  match ev with
  | EvApi c _ => Some c
  | _ => None
  end.

(** Answers to [get_caller_identity]. *)
Definition identity_answer (ev : Event) : option (exn + string) :=
  match ev with
  | EvApi StsGetCallerIdentity answer => Some answer
  | _ => None
  end.

(** The [assume_role] requests: role ARN, session name, and the answer. *)
Definition role_request (ev : Event) : option (string * string * (exn + Credentials)) :=
  match ev with
  | EvApi (StsAssumeRole role_arn name) answer => Some (role_arn, name, answer)
  | _ => None
  end.

(** Answers to [create_bucket]. *)
Definition bucket_outcome (ev : Event) : option (exn + unit) :=
  match ev with
  | EvApi (S3CreateBucket _ _ _) answer => Some answer
  | _ => None
  end.

(** The session every S3 request is sent through. *)
Definition s3_session (ev : Event) : option Session :=
  match ev with
  | EvApi (S3CreateBucket s _ _) _ => Some s
  | EvApi (S3PutBucketPolicy s _ _) _ => Some s
  | EvApi (S3PutBucketEncryption s _ _) _ => Some s
  | _ => None
  end.

(** The [put_bucket_policy] requests: bucket and policy text. *)
Definition policy_request (ev : Event) : option (string * string) :=
  match ev with
  | EvApi (S3PutBucketPolicy _ bucket policy) _ => Some (bucket, policy)
  | _ => None
  end.

(** The [put_bucket_encryption] requests: bucket and algorithm. *)
Definition encryption_request (ev : Event) : option (string * string) :=
  match ev with
  | EvApi (S3PutBucketEncryption _ bucket algorithm) _ => Some (bucket, algorithm)
  | _ => None
  end.

(** The session and the region of every KMS request. *)
Definition kms_client (ev : Event) : option (Session * string) :=
  match ev with
  | EvApi (KmsDescribeKey s region _) _ => Some (s, region)
  | EvApi (KmsCreateKey s region _ _) _ => Some (s, region)
  | EvApi (KmsCreateAlias s region _ _) _ => Some (s, region)
  | _ => None
  end.

(** The [create_key] requests: policy text, description, and the answer. *)
Definition key_request (ev : Event) : option (string * string * (exn + KeyMetadata)) :=
  match ev with
  | EvApi (KmsCreateKey _ _ policy description) answer =>
      Some (policy, description, answer)
  | _ => None
  end.

(** The [create_alias] requests: alias, target key id, and the answer. *)
Definition alias_request (ev : Event) : option (string * string * (exn + unit)) :=
  match ev with
  | EvApi (KmsCreateAlias _ _ alias target) answer => Some (alias, target, answer)
  | _ => None
  end.

(** Answers to [update_organization_configuration]. *)
Definition autoenable_outcome (ev : Event) : option (exn + unit) :=
  match ev with
  | EvApi (GdUpdateOrganizationConfiguration _ _ _ _) answer => Some answer
  | _ => None
  end.

(** Answers to [create_publishing_destination]. *)
Definition publishing_outcome (ev : Event) : option (exn + unit) :=
  match ev with
  | EvApi (GdCreatePublishingDestination _ _ _ _ _ _) answer => Some answer
  | _ => None
  end.

(** Answers to [disable_organization_admin_account]. *)
Definition disable_outcome (ev : Event) : option (exn + unit) :=
  match ev with
  | EvApi (GdDisableOrganizationAdminAccount _ _ _) answer => Some answer
  | _ => None
  end.

(** Answers to the HTTP PUT. *)
Definition put_outcome (ev : Event) : option (exn + HttpResponse) :=
  match ev with
  | EvApi (HttpPut _ _ _) answer => Some answer
  | _ => None
  end.

(** The [put_bucket_policy] requests: bucket, policy text, and the
    answer. *)
Definition policy_outcome (ev : Event) : option (string * string * (exn + unit)) :=
  match ev with
  | EvApi (S3PutBucketPolicy _ bucket policy) answer => Some (bucket, policy, answer)
  | _ => None
  end.

(** The [put_bucket_encryption] requests: bucket, algorithm, and the
    answer. *)
Definition encryption_outcome (ev : Event) : option (string * string * (exn + unit)) :=
  match ev with
  | EvApi (S3PutBucketEncryption _ bucket algorithm) answer =>
      Some (bucket, algorithm, answer)
  | _ => None
  end.

(** * Facts *)

(** ** Strings *)

Module PyStrFacts.
Import PyStr.

Lemma prefix_split p s :
  String.prefix p s = true <-> exists rest, s = p +:+ rest.
Proof.
  revert s. induction p as [|a p IH]; intros s.
  - split; [intros _; by exists s | by destruct s].
  - destruct s as [|b s]; cbn.
    { split; [done|]. intros [rest Hrest]. discriminate Hrest. }
    destruct (Ascii.ascii_dec a b) as [->|Hne].
    + rewrite IH. split; intros [rest Hrest]; exists rest.
      * by rewrite Hrest.
      * by injection Hrest.
    + split; [done|]. intros [rest Hrest]. by injection Hrest.
Qed.

Lemma startswith_split s p :
  startswith s p = true <-> exists rest, s = p +:+ rest.
Proof. apply prefix_split. Qed.

Lemma append_cons c (a b : string) : String c a +:+ b = String c (a +:+ b).
Proof. reflexivity. Qed.

Lemma append_nil (b : string) : EmptyString +:+ b = b.
Proof. reflexivity. Qed.

Lemma replace_from_skip old new o s :
  replace_from old new (String.length o) (o +:+ s) = replace_from old new 0 s.
Proof.
  induction o as [|c o IH]; [done|].
  rewrite append_cons. cbn [String.length replace_from]. apply IH.
Qed.

Lemma length_append (a b : string) :
  String.length (a +:+ b) = String.length a + String.length b.
Proof.
  induction a as [|c a IH]; [done|].
  rewrite append_cons. cbn [String.length]. by rewrite IH.
Qed.

Lemma replace_from_Replaced old new s :
  old <> EmptyString -> Replaced old new s (replace_from old new 0 s).
Proof.
  intros Hold.
  remember (String.length s) as n eqn:Hn.
  revert s Hn. induction n as [n IH] using lt_wf_ind. intros s Hn.
  destruct s as [|c s]; [constructor|].
  cbn [replace_from].
  destruct (String.prefix old (String c s)) eqn:Hp.
  - apply prefix_split in Hp as [rest Hrest].
    destruct old as [|c0 old']; [done|].
    rewrite append_cons in Hrest. injection Hrest as -> ->.
    replace (String.length (String c0 old') - 1) with (String.length old')
      by (cbn [String.length]; lia).
    rewrite replace_from_skip, <- append_cons.
    constructor. eapply IH; [|reflexivity].
    subst n. cbn [String.length]. rewrite length_append. lia.
  - constructor; [done|]. eapply IH; [|reflexivity].
    subst n. cbn [String.length]. lia.
Qed.

(** [s.replace(old, new)] is the literal replacement of [old] by [new]. *)
Lemma replace_Replaced s old new :
  old <> EmptyString -> Replaced old new s (replace s old new).
Proof.
  intros Hold. destruct old; [done|]. by apply replace_from_Replaced.
Qed.

Lemma py_in_In x l : py_in x l = true <-> In x l.
Proof.
  unfold py_in. rewrite existsb_exists. split.
  - intros (y & Hy & Heq). apply String.eqb_eq in Heq. by subst.
  - intros Hx. exists x. split; [done|]. apply String.eqb_refl.
Qed.

End PyStrFacts.

(** ** JSON: decoding what [dumps] encodes *)

Module JsonFacts.
Import Json PyStrFacts.

Lemma append_assoc (a b c : string) : (a +:+ b) +:+ c = a +:+ (b +:+ c).
Proof.
  induction a as [|x a IH]; [done|]. rewrite !append_cons. by rewrite IH.
Qed.

Lemma append_nil_r (a : string) : a +:+ EmptyString = a.
Proof. induction a as [|x a IH]; [done|]. rewrite append_cons. by rewrite IH. Qed.

(** *** UTF-8 *)

Lemma utf8_decode_char c bs :
  utf8_decode (utf8_char c ++ bs) = String c <$> utf8_decode bs.
Proof. destruct c as [[] [] [] [] [] [] [] []]; reflexivity. Qed.

Lemma utf8_decode_encode s : utf8_decode (utf8_encode s) = Some s.
Proof.
  induction s as [|c s IH]; [done|].
  cbn [utf8_encode]. by rewrite utf8_decode_char, IH.
Qed.

(** *** String literals *)

Lemma scan_string_escape_char c tail :
  scan_string (escape_char c +:+ tail) = push c <$> scan_string tail.
Proof. destruct c as [[] [] [] [] [] [] [] []]; reflexivity. Qed.

Lemma scan_string_escape s rest :
  scan_string (escape s +:+ String quote rest) = Some (s, rest).
Proof.
  induction s as [|c s IH]; [done|].
  cbn [escape]. rewrite append_assoc, scan_string_escape_char, IH. done.
Qed.

Lemma scan_string_dumps_str s rest :
  exists tail,
    dumps_str s +:+ rest = String quote tail /\ scan_string tail = Some (s, rest).
Proof.
  exists (escape s +:+ String quote rest). split.
  - unfold dumps_str. rewrite append_cons, append_assoc. done.
  - apply scan_string_escape.
Qed.

(** *** Numbers *)

Lemma int_stop_float rest : int_stop rest = true -> float_tail rest = false.
Proof.
  destruct rest as [|c r]; [done|]. unfold int_stop.
  destruct (digit_of c); [done|]. by destruct (float_tail _).
Qed.

Lemma int_stop_digits rest : int_stop rest = true -> scan_digits rest = (Decimal.Nil, rest).
Proof.
  destruct rest as [|c r]; [done|]. unfold int_stop. cbn [scan_digits].
  by destruct (digit_of c).
Qed.

Lemma scan_digits_uint u rest :
  int_stop rest = true -> scan_digits (uint_str u +:+ rest) = (u, rest).
Proof.
  intros Hrest.
  induction u as [|u IH|u IH|u IH|u IH|u IH|u IH|u IH|u IH|u IH|u IH];
    cbn [uint_str]; rewrite ?append_cons, ?append_nil;
    [by apply int_stop_digits|..];
    cbn [scan_digits]; rewrite IH; reflexivity.
Qed.

Lemma to_uint_no_leading_zero p u : Pos.to_uint p <> Decimal.D0 u.
Proof.
  intros Hp.
  assert (Hnorm : Decimal.unorm (Pos.to_uint p) = Pos.to_uint p).
  { rewrite <- DecimalPos.Unsigned.to_of, DecimalPos.Unsigned.of_to. done. }
  rewrite Hp in Hnorm. unfold Decimal.unorm in Hnorm.
  destruct (Decimal.nzhead (Decimal.D0 u)) eqn:Hnz;
    try (by eapply nzhead_nonzero; rewrite Hnz; eauto);
    try (by injection Hnorm as <-; eapply nzhead_nonzero; eauto).
  injection Hnorm as <-. by apply (DecimalPos.Unsigned.to_uint_nonzero p).
Qed.

Lemma scan_nat_pos p rest :
  int_stop rest = true ->
  scan_nat (uint_str (Pos.to_uint p) +:+ rest) = Some (N.pos p, rest).
Proof.
  intros Hrest.
  pose proof (scan_digits_uint (Pos.to_uint p) rest Hrest) as Hscan.
  pose proof (DecimalPos.Unsigned.of_to p) as Hof.
  pose proof (DecimalPos.Unsigned.to_uint_nonnil p) as Hnil.
  pose proof (to_uint_no_leading_zero p) as Hzero.
  pose proof (int_stop_float rest Hrest) as Hfloat.
  change (Pos.of_uint (Pos.to_uint p)) with (N.of_uint (Pos.to_uint p)) in Hof.
  destruct (Pos.to_uint p) as [|u|u|u|u|u|u|u|u|u|u]; [done|by destruct (Hzero u)|..];
    cbn [uint_str] in *; rewrite append_cons in *;
    unfold scan_nat; rewrite Hscan, Hfloat, Hof; reflexivity.
Qed.

Lemma scan_int_str z rest :
  int_stop rest = true -> scan_int (int_str z +:+ rest) = Some (z, rest).
Proof.
  intros Hrest. pose proof (int_stop_float rest Hrest) as Hfloat.
  destruct z as [|p|p]; cbn [int_str].
  - rewrite append_cons, append_nil. cbn. by rewrite Hfloat.
  - pose proof (scan_nat_pos p rest Hrest) as Hnat.
    pose proof (DecimalPos.Unsigned.to_uint_nonnil p) as Hnil.
    destruct (uint_str (Pos.to_uint p) +:+ rest) as [|c r] eqn:Hs.
    { done. }
    unfold scan_int.
    assert (Hc : (N_of_ascii c =? 45)%N = false).
    { destruct (Pos.to_uint p); cbn [uint_str] in Hs;
        rewrite ?append_cons in Hs; [done|..]; by injection Hs as <- _. }
    rewrite Hc, Hnat. done.
  - rewrite append_cons. cbn. by rewrite scan_nat_pos.
Qed.

Lemma int_str_head z :
  exists c r, int_str z = String c r /\
    ((N_of_ascii c = 45)%N \/ (48 <= N_of_ascii c <= 57)%N).
Proof.
  destruct z as [|p|p]; cbn [int_str].
  - do 2 eexists; split; [reflexivity|]. right. cbn. lia.
  - pose proof (DecimalPos.Unsigned.to_uint_nonnil p) as Hnil.
    destruct (Pos.to_uint p); [done|..]; cbn [uint_str];
      do 2 eexists; (split; [reflexivity|]); right; cbn; lia.
  - do 2 eexists; split; [reflexivity|]. by left.
Qed.

Lemma parse_value_number fuel c s :
  (N_of_ascii c = 45)%N \/ (48 <= N_of_ascii c <= 57)%N ->
  parse_value (S fuel) (String c s)
  = (fun p : Z * string => (JInt (fst p), snd p)) <$> scan_int (String c s).
Proof.
  intros Hc.
  destruct c as [[] [] [] [] [] [] [] []]; cbn in Hc;
    first [ reflexivity | exfalso; lia ].
Qed.

(** *** Dictionaries *)

Lemma dict_set_fresh k v d :
  ~ In k (map fst d) -> dict_set k v d = d ++ [(k, v)].
Proof.
  induction d as [|[k' v'] d IH]; intros Hk; cbn [dict_set app]; [done|].
  cbn [map fst In] in Hk.
  destruct (String.eqb_spec k k') as [->|Hne]; [tauto|].
  rewrite IH; [done|tauto].
Qed.

Lemma dict_of_pairs_from acc l :
  NoDup (map fst (acc ++ l)) ->
  fold_left (fun d p => dict_set (fst p) (snd p) d) l acc = acc ++ l.
Proof.
  revert acc. induction l as [|[k v] l IH]; intros acc Hnd; cbn [fold_left].
  - by rewrite app_nil_r.
  - cbn [fst snd]. rewrite dict_set_fresh.
    + rewrite IH; rewrite <- app_assoc; done.
    + rewrite map_app in Hnd. apply NoDup_app in Hnd as (_ & Hdisj & _).
      intros Hin. apply (Hdisj k); [by apply list_elem_of_In|]. 
      cbn. left.
Qed.

Lemma dict_of_pairs_nodup l : NoDup (map fst l) -> dict_of_pairs l = l.
Proof. intros Hnd. unfold dict_of_pairs. by rewrite dict_of_pairs_from. Qed.

(** *** Induction on JSON values *)

Lemma json_ind (P : json -> Prop) :
  P JNull ->
  (forall b, P (JBool b)) ->
  (forall z, P (JInt z)) ->
  (forall s, P (JStr s)) ->
  (forall items, Forall P items -> P (JArr items)) ->
  (forall members, Forall (fun kv => P (snd kv)) members -> P (JObj members)) ->
  forall v, P v.
Proof.
  intros Hnull Hbool Hint Hstr Harr Hobj.
  fix IH 1. intros [|b|z|s|items|members].
  - apply Hnull.
  - apply Hbool.
  - apply Hint.
  - apply Hstr.
  - apply Harr. induction items as [|x items IHitems]; constructor; [apply IH|done].
  - apply Hobj. induction members as [|[k x] members IHm]; constructor; [apply IH|done].
Qed.

Lemma wf_arr items : wf (JArr items) <-> Forall wf items.
Proof.
  cbn [wf]. induction items as [|x items IH].
  - split; [constructor|done].
  - rewrite Forall_cons. by rewrite <- IH.
Qed.

Lemma wf_obj members :
  wf (JObj members) <->
  NoDup (map fst members) /\ Forall (fun kv => wf (snd kv)) members.
Proof.
  cbn [wf]. apply and_iff_compat_l.
  induction members as [|[k x] members IH].
  - split; [constructor|done].
  - rewrite Forall_cons. cbn [snd]. by rewrite <- IH.
Qed.

(** *** Reading back what [dumps] wrote *)

Lemma dumps_head v :
  exists c r, dumps v = String c r /\ is_ws c = false /\ N_of_ascii c <> 93%N.
Proof.
  destruct v as [|[]|z|s|items|members]; cbn [dumps];
    try (do 2 eexists; split_and!; [reflexivity|done|done]).
  destruct (int_str_head z) as (c & r & -> & Hc).
  exists c, r. split; [done|]. unfold is_ws.
  rewrite !orb_false_iff, !N.eqb_neq. lia.
Qed.

Lemma parse_value_space fuel s :
  parse_value fuel (String " " s) = parse_value fuel s.
Proof. by destruct fuel. Qed.

Lemma parse_items_space fuel s :
  parse_items fuel (String " " s) = parse_items fuel s.
Proof. destruct fuel; [done|]. cbn [parse_items]. by rewrite parse_value_space. Qed.

Lemma parse_members_space fuel s :
  parse_members fuel (String " " s) = parse_members fuel s.
Proof. by destruct fuel. Qed.

Lemma parse_items_more fuel s v r :
  parse_value fuel s = Some (v, String "," (String " " r)) ->
  parse_items (S fuel) s
  = (fun p : list json * string => (v :: fst p, snd p)) <$> parse_items fuel r.
Proof.
  intros Hv. rewrite <- (parse_items_space fuel r).
  change (parse_items (S fuel) s) with
    (match parse_value fuel s with
     | None => None
     | Some (v, r) =>
         match skip_ws r with
         | EmptyString => None
         | String c r' =>
             if (N_of_ascii c =? 44)%N then
               (fun p : list json * string => (v :: fst p, snd p))
                 <$> parse_items fuel r'
             else if (N_of_ascii c =? 93)%N then Some ([v], r')
             else None
         end
     end).
  by rewrite Hv.
Qed.

Lemma parse_items_last fuel s v r :
  parse_value fuel s = Some (v, String "]" r) ->
  parse_items (S fuel) s = Some ([v], r).
Proof.
  intros Hv.
  change (parse_items (S fuel) s) with
    (match parse_value fuel s with
     | None => None
     | Some (v, r) =>
         match skip_ws r with
         | EmptyString => None
         | String c r' =>
             if (N_of_ascii c =? 44)%N then
               (fun p : list json * string => (v :: fst p, snd p))
                 <$> parse_items fuel r'
             else if (N_of_ascii c =? 93)%N then Some ([v], r')
             else None
         end
     end).
  by rewrite Hv.
Qed.

Lemma parse_members_more fuel tail k s v r :
  scan_string tail = Some (k, String ":" (String " " s)) ->
  parse_value fuel s = Some (v, String "," (String " " r)) ->
  parse_members (S fuel) (String quote tail)
  = (fun p : list (string * json) * string => ((k, v) :: fst p, snd p))
      <$> parse_members fuel r.
Proof.
  intros Hk Hv. rewrite <- parse_value_space in Hv.
  rewrite <- (parse_members_space _ r).
  change (parse_members (S fuel) (String quote tail)) with
    (match scan_string tail with
     | None => None
     | Some (k, r1) =>
         match starts_with_code 58 (skip_ws r1) with
         | None => None
         | Some r2 =>
             match parse_value fuel r2 with
             | None => None
             | Some (v, r3) =>
                 match skip_ws r3 with
                 | EmptyString => None
                 | String c r4 =>
                     if (N_of_ascii c =? 44)%N then
                       (fun p : list (string * json) * string =>
                          ((k, v) :: fst p, snd p))
                         <$> parse_members fuel r4
                     else if (N_of_ascii c =? 125)%N then Some ([(k, v)], r4)
                     else None
                 end
             end
         end
     end).
  rewrite Hk.
  change (starts_with_code 58 (skip_ws (String ":" (String " " s))))
    with (Some (String " " s)).
  cbv beta iota. by rewrite Hv.
Qed.

Lemma parse_members_last fuel tail k s v r :
  scan_string tail = Some (k, String ":" (String " " s)) ->
  parse_value fuel s = Some (v, String "}" r) ->
  parse_members (S fuel) (String quote tail) = Some ([(k, v)], r).
Proof.
  intros Hk Hv. rewrite <- parse_value_space in Hv.
  change (parse_members (S fuel) (String quote tail)) with
    (match scan_string tail with
     | None => None
     | Some (k, r1) =>
         match starts_with_code 58 (skip_ws r1) with
         | None => None
         | Some r2 =>
             match parse_value fuel r2 with
             | None => None
             | Some (v, r3) =>
                 match skip_ws r3 with
                 | EmptyString => None
                 | String c r4 =>
                     if (N_of_ascii c =? 44)%N then
                       (fun p : list (string * json) * string =>
                          ((k, v) :: fst p, snd p))
                         <$> parse_members fuel r4
                     else if (N_of_ascii c =? 125)%N then Some ([(k, v)], r4)
                     else None
                 end
             end
         end
     end).
  rewrite Hk.
  change (starts_with_code 58 (skip_ws (String ":" (String " " s))))
    with (Some (String " " s)).
  cbv beta iota. by rewrite Hv.
Qed.

Lemma parse_value_arr fuel c r :
  is_ws c = false -> N_of_ascii c <> 93%N ->
  parse_value (S fuel) (String "[" (String c r))
  = (fun p : list json * string => (JArr (fst p), snd p))
      <$> parse_items fuel (String c r).
Proof.
  intros Hws Hc.
  destruct c as [[] [] [] [] [] [] [] []];
    first [ reflexivity | discriminate Hws | by destruct Hc ].
Qed.

Lemma parse_value_obj fuel tail :
  parse_value (S fuel) (String "{" (String quote tail))
  = (fun p : list (string * json) * string =>
       (JObj (dict_of_pairs (fst p)), snd p))
      <$> parse_members fuel (String quote tail).
Proof. reflexivity. Qed.

Lemma parse_value_str fuel tail :
  parse_value (S fuel) (String quote tail)
  = (fun p : string * string => (JStr (fst p), snd p)) <$> scan_string tail.
Proof. reflexivity. Qed.

Lemma parse_items_dumps items :
  items <> [] -> Forall reads_back items -> Forall wf items ->
  forall fuel rest,
    String.length (dumps_items dumps items) <= fuel ->
    parse_items fuel (dumps_items dumps items +:+ rest) = Some (items, rest).
Proof.
  intros Hne Hread Hwf.
  induction items as [|x items IH]; [done|]. clear Hne.
  apply Forall_cons in Hread as [Hx Hread]. apply Forall_cons in Hwf as [Hwx Hwf].
  intros fuel rest Hlen. cbn [dumps_items] in *.
  destruct items as [|y items].
  - rewrite length_append in Hlen. cbn [String.length] in Hlen.
    destruct fuel as [|fuel]; [lia|].
    rewrite append_assoc, append_cons, append_nil.
    apply parse_items_last. apply (Hx Hwx); [lia|done].
  - rewrite !length_append in Hlen. cbn [String.length] in Hlen.
    destruct fuel as [|fuel]; [lia|].
    rewrite !append_assoc, !append_cons, append_nil.
    erewrite parse_items_more; [|apply (Hx Hwx); [lia|done]].
    rewrite IH; [done|done|done|done|lia].
Qed.

Lemma parse_members_dumps members :
  members <> [] ->
  Forall (fun kv => reads_back (snd kv)) members ->
  Forall (fun kv => wf (snd kv)) members ->
  forall fuel rest,
    String.length (dumps_members dumps members) <= fuel ->
    parse_members fuel (dumps_members dumps members +:+ rest)
    = Some (members, rest).
Proof.
  intros Hne Hread Hwf.
  induction members as [|[k x] members IH]; [done|]. clear Hne.
  apply Forall_cons in Hread as [Hx Hread]. apply Forall_cons in Hwf as [Hwx Hwf].
  cbn [snd] in Hx, Hwx.
  intros fuel rest Hlen. cbn [dumps_members] in *.
  destruct members as [|[k' y] members].
  - rewrite !length_append in Hlen. cbn [String.length] in Hlen.
    destruct fuel as [|fuel]; [lia|].
    rewrite !append_assoc.
    destruct (scan_string_dumps_str k (": " +:+ dumps x +:+ "}" +:+ rest))
      as (tail & -> & Hk).
    rewrite !append_cons, !append_nil in Hk.
    eapply parse_members_last; [exact Hk|].
    apply (Hx Hwx); [lia|done].
  - rewrite !length_append in Hlen. cbn [String.length] in Hlen.
    destruct fuel as [|fuel]; [lia|].
    rewrite !append_assoc.
    match goal with
    | |- parse_members _ (dumps_str k +:+ ?r) = _ =>
        destruct (scan_string_dumps_str k r) as (tail & -> & Hk)
    end.
    rewrite !append_cons, !append_nil in Hk.
    erewrite parse_members_more; [|exact Hk|].
    + rewrite IH; [done|done|done|done|lia].
    + apply (Hx Hwx); [lia|done].
Qed.

(** Whatever [dumps] writes, [parse_value] reads back, given fuel for
    every character. *)
Lemma parse_value_dumps v : reads_back v.
Proof.
  induction v as [|b|z|s|items IH|members IH] using json_ind;
    intros Hwf fuel rest Hlen Hrest;
    (destruct fuel as [|fuel];
     [ exfalso;
       match type of Hlen with
       | String.length (dumps ?v) <= _ =>
           destruct (dumps_head v) as (? & ? & Hd & _)
       end;
       rewrite Hd in Hlen; cbn [String.length] in Hlen; lia |]).
  - reflexivity.
  - by destruct b.
  - cbn [dumps]. destruct (int_str_head z) as (c & r & Hz & Hc).
    pose proof (scan_int_str z rest Hrest) as Hscan.
    rewrite Hz, append_cons in *. by rewrite parse_value_number, Hscan.
  - cbn [dumps]. destruct (scan_string_dumps_str s rest) as (tail & -> & Htail).
    by rewrite parse_value_str, Htail.
  - cbn [dumps] in *. apply wf_arr in Hwf.
    destruct items as [|x items]; [reflexivity|].
    cbn [String.length] in Hlen. rewrite length_append in Hlen.
    rewrite append_assoc, append_cons, append_nil.
    pose proof (parse_items_dumps (x :: items) ltac:(done) IH Hwf fuel rest) as Hitems.
    destruct (dumps_head x) as (c & r & Hx & Hws & Hc).
    assert (Hhead : exists r', dumps_items dumps (x :: items) +:+ rest = String c r').
    { cbn [dumps_items]. destruct items; rewrite Hx, !append_cons; eauto. }
    destruct Hhead as (r' & Hr'). rewrite Hr' in *.
    rewrite parse_value_arr, Hitems by (done || cbn [String.length] in Hlen; lia).
    done.
  - cbn [dumps] in *. apply wf_obj in Hwf as [Hnd Hwf].
    destruct members as [|[k x] members]; [reflexivity|].
    cbn [String.length] in Hlen. rewrite length_append in Hlen.
    rewrite append_assoc, append_cons, append_nil.
    pose proof (parse_members_dumps ((k, x) :: members) ltac:(done) IH Hwf fuel rest)
      as Hmembers.
    assert (Hhead : exists r',
               dumps_members dumps ((k, x) :: members) +:+ rest = String quote r').
    { cbn [dumps_members]. unfold dumps_str.
      destruct members; rewrite !append_cons; eauto. }
    destruct Hhead as (r' & Hr'). rewrite Hr' in *.
    rewrite parse_value_obj, Hmembers by (cbn [String.length] in Hlen; lia).
    cbn -[dict_of_pairs]. by rewrite dict_of_pairs_nodup.
Qed.

Lemma loads_dumps v : wf v -> loads (dumps v) = Some v.
Proof.
  intros Hwf. unfold loads.
  pose proof (parse_value_dumps v Hwf (S (String.length (dumps v))) EmptyString) as Hp.
  rewrite append_nil_r in Hp. rewrite Hp by (done || lia). done.
Qed.

(** Encoding a well-formed value to the wire and decoding it gives the
    value back. *)
Lemma decode_encode v : wf v -> decode (utf8_encode (dumps v)) = Some v.
Proof.
  intros Hwf. unfold decode. by rewrite utf8_decode_encode, loads_dumps.
Qed.

End JsonFacts.

(** ** The monad *)

Section MonadFacts.
Context {W : Type}.

Lemma bind_res {A B} (m : M W A) (k : A -> M W B) s :
  res (bind m k s) =
  match res (m s) with
  | inl e => inl e
  | inr a => res (k a (final (m s)))
  end.
Proof.
  unfold bind. destruct (m s) as [[e|a] s' t]; cbn; [done|].
  by destruct (k a s').
Qed.

Lemma bind_final {A B} (m : M W A) (k : A -> M W B) s :
  final (bind m k s) =
  match res (m s) with
  | inl e => final (m s)
  | inr a => final (k a (final (m s)))
  end.
Proof.
  unfold bind. destruct (m s) as [[e|a] s' t]; cbn; [done|].
  by destruct (k a s').
Qed.

Lemma bind_events {A B} (m : M W A) (k : A -> M W B) s :
  events (bind m k s) =
  events (m s) ++
  match res (m s) with
  | inl e => []
  | inr a => events (k a (final (m s)))
  end.
Proof.
  unfold bind. destruct (m s) as [[e|a] s' t]; cbn; [by rewrite app_nil_r|].
  by destruct (k a s').
Qed.

Lemma attempt_res {A} (m : M W A) s : res (attempt m s) = inr (res (m s)).
Proof. unfold attempt. by destruct (m s). Qed.

Lemma attempt_final {A} (m : M W A) s : final (attempt m s) = final (m s).
Proof. unfold attempt. by destruct (m s). Qed.

Lemma attempt_events {A} (m : M W A) s : events (attempt m s) = events (m s).
Proof. unfold attempt. by destruct (m s). Qed.

Lemma try_except_res {A} (body : M W A) handles handler s :
  res (try_except body handles handler s) =
  match res (body s) with
  | inr a => inr a
  | inl e => if handles e then res (handler e (final (body s))) else inl e
  end.
Proof.
  unfold try_except. rewrite bind_res, attempt_res, attempt_final.
  destruct (res (body s)) as [e|a]; [|done]. by destruct (handles e).
Qed.

Lemma try_except_final {A} (body : M W A) handles handler s :
  final (try_except body handles handler s) =
  match res (body s) with
  | inr a => final (body s)
  | inl e => if handles e then final (handler e (final (body s))) else final (body s)
  end.
Proof.
  unfold try_except. rewrite bind_final, attempt_res, attempt_final.
  destruct (res (body s)) as [e|a]; [|done]. by destruct (handles e).
Qed.


Lemma enter_events {A} (f : Entered) (m : M W A) s :
  events ((enter f;; m) s) = EvEnter f :: events (m s).
Proof. by rewrite bind_events. Qed.

Lemma pick_cons_some {X} (f : Event -> option X) ev t x :
  f ev = Some x -> pick f (ev :: t) = x :: pick f t.
Proof. intros Hf. unfold pick. cbn. by rewrite Hf. Qed.

Lemma pick_cons_none {X} (f : Event -> option X) ev t :
  f ev = None -> pick f (ev :: t) = pick f t.
Proof. intros Hf. unfold pick. cbn. by rewrite Hf. Qed.

Lemma pick_app {X} (f : Event -> option X) t t' :
  pick f (t ++ t') = pick f t ++ pick f t'.
Proof. apply omap_app. Qed.

#[export] Instance silent_stable {X} (f : Event -> option X) : Stable (@silent W X f).
Proof.
  split; unfold silent; [done|].
  intros _ _ _ t t' Ht Ht'. by rewrite pick_app, Ht, Ht'.
Qed.

#[export] Instance keeps_stable {X} (g : State W -> X) : Stable (keeps g).
Proof. split; unfold keeps; [done|]. intros; congruence. Qed.

Section Respects.
Context (R : Step W) `{!Stable R}.

Lemma respects_ret {A} (a : A) : respects R (ret a).
Proof. intros s. apply stable_nil. Qed.

Lemma respects_raise {A} e : respects R (@raise W A e).
Proof. intros s. apply stable_nil. Qed.

Lemma respects_lift {A} (r : exn + A) : respects R (lift r).
Proof. intros s. apply stable_nil. Qed.

Lemma respects_get_failed_regions : respects R get_failed_regions.
Proof. intros s. apply stable_nil. Qed.

Lemma respects_get_failed_members : respects R get_failed_members.
Proof. intros s. apply stable_nil. Qed.

Lemma respects_bind {A B} (m : M W A) (k : A -> M W B) :
  respects R m -> (forall a, respects R (k a)) -> respects R (bind m k).
Proof.
  intros Hm Hk s. rewrite bind_final, bind_events.
  destruct (res (m s)) as [e|a].
  - rewrite app_nil_r. apply Hm.
  - eapply stable_app; [apply Hm | apply Hk].
Qed.

Lemma respects_attempt {A} (m : M W A) : respects R m -> respects R (attempt m).
Proof. intros Hm s. rewrite attempt_final, attempt_events. apply Hm. Qed.

Lemma respects_try_except {A} (body : M W A) handles handler :
  respects R body -> (forall e, respects R (handler e)) ->
  respects R (try_except body handles handler).
Proof.
  intros Hb Hh. unfold try_except.
  apply respects_bind; [by apply respects_attempt|].
  intros [e|a]; [|apply respects_ret].
  destruct (handles e); [apply Hh | apply respects_raise].
Qed.

Lemma respects_try_block {L} (stmts : list (L -> M W L)) l handles handler :
  Forall (fun stmt => forall l, respects R (stmt l)) stmts ->
  (forall e l, respects R (handler e l)) ->
  respects R (try_block stmts l handles handler).
Proof.
  intros Hs Hh. revert l.
  induction Hs as [|stmt rest Hstmt _ IH]; intros l; cbn [try_block].
  - apply respects_ret.
  - apply respects_bind; [apply respects_attempt, Hstmt|].
    intros [e|l']; [|apply IH].
    destruct (handles e); [apply Hh | apply respects_raise].
Qed.

Lemma respects_for_each {A} (l : list A) (body : A -> M W unit) :
  (forall x, respects R (body x)) -> respects R (for_each l body).
Proof.
  intros Hb. induction l as [|x l IH]; cbn [for_each].
  - apply respects_ret.
  - apply respects_bind; [apply Hb | intros _; apply IH].
Qed.

Lemma respects_index {A} (l : list A) i : respects R (index l i).
Proof. unfold index. destruct (nth_error l i); [apply respects_ret | apply respects_raise]. Qed.

Lemma respects_subscript {A} (o : option A) k : respects R (subscript o k).
Proof. destruct o; [apply respects_ret | apply respects_raise]. Qed.

Lemma respects_local_var {A} (o : option A) k : respects R (local_var o k).
Proof. destruct o; [apply respects_ret | apply respects_raise]. Qed.

End Respects.

Lemma silent_emit {X} (f : Event -> option X) ev :
  f ev = None -> respects (silent f) (@emit W ev).
Proof. intros Hf s. unfold silent; cbn. by rewrite Hf. Qed.

Lemma silent_invoke `{Env W} {X} (f : Event -> option X) c :
  (forall answer, f (EvApi c answer) = None) -> respects (silent f) (invoke c).
Proof.
  intros Hf s. unfold silent, invoke.
  destruct (oracle c (world s)) as [answer w]; cbn. by rewrite Hf.
Qed.

Lemma silent_set_failed_regions {X} (f : Event -> option X) l :
  respects (silent f) (@set_failed_regions W l).
Proof. by intros s. Qed.

Lemma silent_set_failed_members {X} (f : Event -> option X) m :
  respects (silent f) (@set_failed_members W m).
Proof. by intros s. Qed.

Lemma keeps_emit {X} (g : State W -> X) ev : respects (keeps g) (emit ev).
Proof. by intros s. Qed.

Lemma keeps_regions_invoke `{Env W} c : respects (keeps failed_regions) (invoke c).
Proof. intros s. unfold keeps, invoke. by destruct (oracle c (world s)). Qed.

Lemma keeps_members_invoke `{Env W} c : respects (keeps failed_members) (invoke c).
Proof. intros s. unfold keeps, invoke. by destruct (oracle c (world s)). Qed.

Lemma keeps_regions_set_members m :
  respects (keeps failed_regions) (@set_failed_members W m).
Proof. by intros s. Qed.

Lemma keeps_members_set_regions l :
  respects (keeps failed_members) (@set_failed_regions W l).
Proof. by intros s. Qed.

End MonadFacts.

(** Decomposes a goal [respects R m] along the shape of [m]. *)
Ltac stable := lazymatch goal with |- Stable _ => typeclasses eauto end.

Ltac respects_step :=
  lazymatch goal with
  | |- respects _ (ret _) => apply respects_ret; stable
  | |- respects _ (raise _) => apply respects_raise; stable
  | |- respects _ (lift _) => apply respects_lift; stable
  | |- respects _ get_failed_regions => apply respects_get_failed_regions; stable
  | |- respects _ get_failed_members => apply respects_get_failed_members; stable
  | |- respects _ (index _ _) => apply respects_index; stable
  | |- respects _ (subscript _ _) => apply respects_subscript; stable
  | |- respects _ (local_var _ _) => apply respects_local_var; stable
  | |- respects _ (bind _ _) => apply respects_bind; [ stable | | intros ? ]
  | |- respects _ (try_except _ _ _) =>
      apply respects_try_except; [ stable | | intros ? ]
  | |- respects _ (attempt _) => apply respects_attempt
  | |- respects _ (for_each _ _) => apply respects_for_each; [ stable | intros ? ]
  | |- respects (silent _) (emit _) => apply silent_emit; reflexivity
  | |- respects (silent _) (log _ _) => apply silent_emit; reflexivity
  | |- respects (silent _) (enter _) => apply silent_emit; reflexivity
  | |- respects (silent _) (invoke _) => apply silent_invoke; intros ?; reflexivity
  | |- respects (silent _) (set_failed_regions _) => apply silent_set_failed_regions
  | |- respects (silent _) (set_failed_members _) => apply silent_set_failed_members
  | |- respects (keeps _) (emit _) => apply keeps_emit
  | |- respects (keeps _) (log _ _) => apply keeps_emit
  | |- respects (keeps _) (enter _) => apply keeps_emit
  | |- respects (keeps failed_regions) (invoke _) => apply keeps_regions_invoke
  | |- respects (keeps failed_members) (invoke _) => apply keeps_members_invoke
  | |- respects (keeps failed_regions) (set_failed_members _) =>
      apply keeps_regions_set_members
  | |- respects (keeps failed_members) (set_failed_regions _) =>
      apply keeps_members_set_regions
  | |- respects _ (match ?x with _ => _ end) => destruct x
  end.

Ltac respects_auto :=
  unfold handler, handler_setup, handler_regions, region_turn, handler_report,
    cfnresponse,
    create_s3_destination, create_kms_key, enable_gd_member, enable_gd_master,
    assume_role, py_split, str_concat;
  cbn [try_block];
  repeat respects_step.

(** Runs a function of the module on a symbolic state: the combinators
    are unfolded, and every answer of the oracle and every other value a
    branch depends on is split into its cases. *)
Ltac run_red :=
  cbv beta iota zeta delta
    [try_except try_block bind attempt enter log emit invoke ret raise lift
     index subscript local_var get_failed_members set_failed_members
     get_failed_regions set_failed_regions py_split str_concat is_Exception];
  cbn [res final events world failed_regions failed_members app pick omap
     list_omap nth_error
     callback master_call member_call admin_request detector_listing
     publishing_request account_listing member_request trail_listing
     bucket_creation s3_bucket key_lookup key_creation http_put].

Ltac run_case :=
  match goal with
  | |- context [match ?x with _ => _ end] =>
      lazymatch x with
      | context [match _ with _ => _ end] => fail
      | oracle ?c ?w =>
          let e := fresh "e" in
          let a := fresh "a" in
          let w' := fresh "w" in
          let E := fresh "Ho" in
          destruct (oracle c w) as [[e|a] w'] eqn:E
      | _ => destruct x eqn:?
      end
  end.

Ltac run := run_red; repeat (run_case; run_red).

Section ModuleFacts.
Context {W : Type} `{Env W}.

(** ** Where the callback can be entered from *)

Lemma handler_setup_no_callback : respects (silent callback) handler_setup.
Proof. respects_auto. Qed.

Lemma handler_regions_no_callback regions session properties :
  respects (silent callback) (handler_regions regions session properties).
Proof. respects_auto. Qed.

Lemma cfnresponse_events event context status data physical noEcho s :
  exists rest,
    events (cfnresponse event context status data physical noEcho s) =
      EvEnter (In_cfnresponse status data physical noEcho) :: rest
    /\ pick callback rest = [].
Proof.
  unfold cfnresponse. rewrite enter_events.
  eexists; split; [reflexivity|].
  match goal with
  | |- pick _ (events (?m ?s)) = _ =>
      assert (Hm : respects (silent callback) m) by respects_auto; apply Hm
  end.
Qed.

Lemma handler_report_callback event context s :
  exists after,
    events (handler_report event context s) =
      EvEnter (In_cfnresponse "SUCCESS" (JObj [("Data", JInt 120)]) None false)
        :: after
    /\ pick callback after = [].
Proof.
  unfold handler_report, default_physicalResourceId, default_noEcho.
  cbn [dict_set].
  destruct (cfnresponse_events event context "SUCCESS" (JObj [("Data", JInt 120)])
              None false s) as (rest & Hev & Hrest).
  rewrite bind_events, Hev.
  eexists; split; [reflexivity|].
  rewrite pick_app, Hrest. destruct (res _); [done|].
  match goal with
  | |- _ ++ pick _ (events (?m ?s)) = _ =>
      assert (Hm : respects (silent callback) m) by respects_auto; apply Hm
  end.
Qed.

(** ** The loop over the regions *)

Lemma for_each_res {A} (l : list A) (body : A -> M W unit) s :
  (forall x s, res (body x s) = inr tt) -> res (for_each l body s) = inr tt.
Proof.
  intros Hb. revert s. induction l as [|x l IH]; intros s; cbn [for_each]; [done|].
  rewrite bind_res, Hb. apply IH.
Qed.





Lemma region_turn_res session properties region s :
  res (region_turn session properties region s) = inr tt.
Proof.
  unfold region_turn. rewrite try_except_res. cbn [is_Exception].
  destruct (res _) as [e|[]]; done.
Qed.








Lemma handler_regions_res regions session properties s :
  res (handler_regions regions session properties s) = inr tt.
Proof. apply for_each_res. intros; apply region_turn_res. Qed.

Lemma handler_events event context s regions session properties :
  res (handler_setup s) = inr (regions, session, properties) ->
  events (handler event context s) =
    events (handler_setup s) ++
    events (handler_regions regions session properties (final (handler_setup s))) ++
    events (handler_report event context
              (final (handler_regions regions session properties
                        (final (handler_setup s))))).
Proof.
  intros Hsetup. unfold handler. rewrite bind_events, Hsetup.
  by rewrite bind_events, handler_regions_res.
Qed.

Lemma handler_res event context s regions session properties :
  res (handler_setup s) = inr (regions, session, properties) ->
  res (handler event context s) =
    res (handler_report event context
           (final (handler_regions regions session properties
                     (final (handler_setup s))))).
Proof.
  intros Hsetup. unfold handler. rewrite bind_res, Hsetup.
  by rewrite bind_res, handler_regions_res.
Qed.

(** C1. Whenever the part of [handler] before the loop has returned, so
    that the loop over the regions is run, the loop runs to its end
    whatever the provider answers in any region, and [cfnresponse] is
    entered exactly once in the whole invocation, right behind the events
    of the loop, with status ['SUCCESS'], data [{'Data': 120}] and the
    default physical id and no-echo flag. *)
Theorem handler_reports_success_once event context s regions session properties :
  res (handler_setup s) = inr (regions, session, properties) ->
  let loop := handler_regions regions session properties (final (handler_setup s)) in
  res loop = inr tt /\
  pick callback (events (handler event context s)) =
    [("SUCCESS", JObj [("Data", JInt 120)], None, false)] /\
  exists after,
    events (handler event context s) =
      events (handler_setup s) ++ events loop ++
      EvEnter (In_cfnresponse "SUCCESS" (JObj [("Data", JInt 120)]) None false)
        :: after.
Proof.
  intros Hsetup loop. split; [apply handler_regions_res|].
  rewrite (handler_events _ _ _ _ _ _ Hsetup). fold loop.
  destruct (handler_report_callback event context (final loop))
    as (after & -> & Hafter).
  split; [|by exists after].
  rewrite !pick_app, (handler_setup_no_callback s).
  unfold loop. rewrite (handler_regions_no_callback _ _ _ _).
  rewrite (pick_cons_some _ _ _ ("SUCCESS", JObj [("Data", JInt 120)], None, false))
    by done.
  by rewrite Hafter.
Qed.

Lemma handler_setup_no_region_work :
  respects (silent master_call) handler_setup /\
  respects (silent admin_request) handler_setup /\
  respects (silent member_call) handler_setup.
Proof. repeat split; respects_auto. Qed.



(** ** The callback payload *)

(** C10. For every call of [cfnresponse] that builds its payload (the
    event has the three identifiers) with well-formed data: the body of the
    HTTP PUT is the UTF-8 form of [json.dumps] of the payload; decoding
    that wire form gives the payload back, with its eight fields [Status],
    [Reason], [PhysicalResourceId], [StackId], [RequestId],
    [LogicalResourceId], [NoEcho] and [Data] holding the values passed;
    [NoEcho] is [false] under the default of [noEcho], and
    [PhysicalResourceId] is the log stream name under the default of
    [physicalResourceId]. *)
Theorem cfnresponse_round_trip event context responseStatus responseData
    physicalResourceId noEcho responseBody :
  wf responseData ->
  responseBody_of event context responseStatus responseData physicalResourceId noEcho
  = inr responseBody ->
  let ls := log_stream_name context in
  let wire := utf8_encode (dumps (JObj responseBody)) in
  (forall s url,
     event !! "ResponseURL" = Some url ->
     map (fun r => (fst (fst r), snd (fst r)))
       (pick http_put
          (events (cfnresponse event context responseStatus responseData
                     physicalResourceId noEcho s)))
     = [(url, wire)]) /\
  exists decoded,
    decode wire = Some decoded /\
    decoded = JObj responseBody /\
    map fst responseBody
    = ["Status"; "Reason"; "PhysicalResourceId"; "StackId"; "RequestId";
       "LogicalResourceId"; "NoEcho"; "Data"] /\
    field "Status" decoded = Some (JStr responseStatus) /\
    field "Reason" decoded
    = Some (JStr ("See the details in CloudWatch Log Stream: " +:+ ls)) /\
    field "PhysicalResourceId" decoded = Some (JStr (py_or physicalResourceId ls)) /\
    field "StackId" decoded = JStr <$> event !! "StackId" /\
    field "RequestId" decoded = JStr <$> event !! "RequestId" /\
    field "LogicalResourceId" decoded = JStr <$> event !! "LogicalResourceId" /\
    field "NoEcho" decoded = Some (JBool noEcho) /\
    field "Data" decoded = Some responseData /\
    (noEcho = default_noEcho -> field "NoEcho" decoded = Some (JBool false)) /\
    (physicalResourceId = default_physicalResourceId ->
     field "PhysicalResourceId" decoded = Some (JStr ls)).
Proof.
  intros Hwf Hbody ls wire.
  split.
  { intros s url Hurl. unfold cfnresponse. rewrite Hbody, Hurl. subst wire.
    run; done. }
  exists (JObj responseBody).
  unfold responseBody_of in Hbody.
  destruct (event !! "StackId") as [stack_id|] eqn:Hstack; [|done].
  destruct (event !! "RequestId") as [request_id|] eqn:Hrequest; [|done].
  destruct (event !! "LogicalResourceId") as [logical_id|] eqn:Hlogical; [|done].
  cbn in Hbody. injection Hbody as <-. fold ls in wire |- *.
  split.
  { apply JsonFacts.decode_encode, JsonFacts.wf_obj. split.
    - cbn. compute_done.
    - repeat constructor; done. }
  split_and!; try done.
  - by intros ->.
  - by intros ->.
Qed.

(** ** The failure records *)

Lemma handler_keeps_failed_regions event context :
  respects (keeps failed_regions) (handler event context).
Proof. respects_auto. Qed.

Lemma disable_gd_master_records region s answer w :
  oracle (GdDisableOrganizationAdminAccount DefaultSession region
            gdmaster_account_number) (world s) = (inl answer, w) ->
  failed_regions (final (disable_gd_master region s)) = failed_regions s ++ [region].
Proof.
  intros Ho. unfold disable_gd_master, try_except, bind, attempt, enter, log,
    emit, invoke, ret, get_failed_regions, set_failed_regions.
  cbn. rewrite Ho. done.
Qed.

Lemma enable_gd_member_key_is_literal session region properties s :
  let o := enable_gd_member session region properties s in
  failed_members (final o) = failed_members s \/
  exists failed_accounts,
    failed_members (final o) = <["region" := failed_accounts]> (failed_members s).
Proof.
  cbv zeta. unfold enable_gd_member, account_keyed_dict. run; eauto.
Qed.

Lemma enable_gd_member_client_error session region properties s
    region' details code :
  let o := enable_gd_member session region properties s in
  In (region', details, inl (ClientError code)) (pick member_request (events o)) ->
  (res o = inl (TypeError "unhashable type: 'dict'") \/
   res o = inl (NameError "account")) /\
  failed_members (final o) = failed_members s.
Proof.
  cbv zeta. unfold enable_gd_member, account_keyed_dict.
  run; cbn [In]; intros Hin; destruct_or?; simplify_eq; auto; done.
Qed.

(** ** The member enroller *)

Lemma roster_loop_length accounts details account :
  length (fst (roster_loop accounts details account)) +
  count_occ string_dec (map Id accounts) gdmaster_account_number
  = length details + length accounts.
Proof.
  revert details account.
  induction accounts as [|a accounts IH]; intros details account;
    cbn [roster_loop map count_occ length fst]; [lia|].
  cbv zeta.
  match goal with
  | |- context [roster_loop accounts ?d ?acc] => specialize (IH d acc)
  end.
  destruct (String.eqb_spec (Id a) gdmaster_account_number) as [Heq|Hne];
    cbn [negb] in *; destruct (string_dec _ _); try congruence;
    rewrite ?length_app in IH; cbn [length] in IH; lia.
Qed.

Lemma roster_loop_no_master accounts details account :
  Forall (fun d => AccountId d <> gdmaster_account_number) details ->
  Forall (fun d => AccountId d <> gdmaster_account_number)
    (fst (roster_loop accounts details account)).
Proof.
  revert details account.
  induction accounts as [|a accounts IH]; intros details account Hd;
    cbn [roster_loop fst]; [done|].
  cbv zeta. apply IH.
  destruct (String.eqb_spec (Id a) gdmaster_account_number) as [Heq|Hne];
    cbn [negb]; [done|].
  apply Forall_app; split; [done|]. by constructor.
Qed.

(** C7. When the organization lists [N] accounts of which exactly one has
    the id of the master account, [enable_gd_member] sends one
    [create_members] request, and its roster has [N - 1] entries, none of
    them with the master's id. *)
Theorem enable_gd_member_roster session region properties s accounts :
  let o := enable_gd_member session region properties s in
  In (inr accounts) (pick account_listing (events o)) ->
  count_occ string_dec (map Id accounts) gdmaster_account_number = 1 ->
  exists details answer,
    pick member_request (events o) = [(region, details, answer)] /\
    details = roster accounts /\
    length details = length accounts - 1 /\
    Forall (fun d => AccountId d <> gdmaster_account_number) details.
Proof.
  intros o Hin Hcount.
  assert (Hlen : length (roster accounts) = length accounts - 1).
  { pose proof (roster_loop_length accounts [] None) as Hl.
    unfold roster. cbn [length] in Hl. lia. }
  assert (Hno : Forall (fun d => AccountId d <> gdmaster_account_number)
                  (roster accounts)).
  { apply roster_loop_no_master. constructor. }
  revert Hin. subst o. unfold enable_gd_member, account_keyed_dict.
  run; cbn [In]; intros Hin; destruct_or?; simplify_eq; try done;
    do 2 eexists; (split; [reflexivity|]); done.
Qed.

(** C3, as the code has it. When [list_detectors] answers with an empty
    list for a region, [enable_gd_member] sends neither a
    [create_publishing_destination] nor a [create_members] request for it
    and leaves both failure records as they were; the turn of the loop for
    that region still returns normally, so the next region is handled. *)
Theorem enable_gd_member_no_detector session region properties s w :
  oracle (GdListDetectors session region) (world s) = (inr [], w) ->
  let o := enable_gd_member session region properties s in
  pick publishing_request (events o) = [] /\
  pick member_request (events o) = [] /\
  failed_regions (final o) = failed_regions s /\
  failed_members (final o) = failed_members s /\
  (forall s', res (region_turn session properties region s') = inr tt).
Proof.
  intros Ho o. split_and!; [..|intros; apply region_turn_res];
    subst o; unfold enable_gd_member; run_red; rewrite Ho; run; done.
Qed.

(** ** The destination provisioner *)

(** Every run of [create_s3_destination], read off its events: either it
    stops before any bucket is named, or the trail it found fixes the
    bucket, the location constraint and the use of the key. *)
Lemma create_s3_destination_run sts_session s :
  let o := create_s3_destination sts_session s in
  (pick key_lookup (events o) = [] /\
   pick bucket_creation (events o) = [] /\
   pick s3_bucket (events o) = [] /\
   (forall trail trails, ~ In (inr (trail :: trails)) (pick trail_listing (events o))) /\
   (forall props, res o <> inr props))
  \/
  exists trail trails,
    pick trail_listing (events o) = [inr (trail :: trails)] /\
    Forall (eq (PyStr.replace (S3BucketName trail) "logs" "guardduty"))
      (pick s3_bucket (events o)) /\
    (forall props, res o = inr props ->
       DestinationArn props =
         "arn:aws:s3:::" +:+ PyStr.replace (S3BucketName trail) "logs" "guardduty") /\
    (forall bucket constraint,
       In (bucket, constraint) (pick bucket_creation (events o)) ->
       constraint =
         if py_in (HomeRegion trail) allowed_regions then Some (HomeRegion trail)
         else if PyStr.startswith (HomeRegion trail) "eu" then Some "EU"
         else None) /\
    (forall arn,
       In (key_alias, inr arn) (pick key_lookup (events o)) ->
       pick key_creation (events o) = [] /\
       forall props, res o = inr props -> KmsKeyArn props = arn).
Proof.
  intros o.
  assert (Ho : o = create_s3_destination sts_session s) by reflexivity.
  clearbody o. revert Ho.
  unfold create_s3_destination, create_kms_key, assume_role.
  run.
  all: intros ->;
    cbn [res final events pick omap list_omap app key_lookup bucket_creation
         s3_bucket trail_listing key_creation].
  all: try (left; split_and!;
              [done..| intros ? ? Hin; cbn [In] in Hin; destruct_or?; by simplify_eq
              | done ]).
  all: right; do 2 eexists; (split; [reflexivity|]).
  all: split; [ repeat constructor | ].
  all: split; [ intros props Hp; by simplify_eq | ].
  all: split;
    [ cbn [In]; intros b lc Hin; destruct_or?; simplify_eq; try done;
      by rewrite ?Heqb, ?Heqb0 | ].
  all: cbn [In]; intros arn Hin; destruct_or?; simplify_eq; try done.
  all: split; [done|]; intros props Hp; by simplify_eq.
Qed.

(** Every run of [create_s3_destination] from the role assumption on:
    either no role was assumed and nothing was asked of S3 or KMS, or the
    bucket is requested under the derived name, the policy is put with the
    key the lookup gave, and the result is that of the two requests which
    follow. *)
Lemma create_s3_destination_completion sts_session s :
  let o := create_s3_destination sts_session s in
  (pick key_lookup (events o) = [] /\
   (forall role_arn name credentials,
      ~ In (role_arn, name, inr credentials) (pick role_request (events o))))
  \/
  exists trail trails constraint key policy_answer,
    pick trail_listing (events o) = [inr (trail :: trails)] /\
    pick bucket_creation (events o)
    = [(PyStr.replace (S3BucketName trail) "logs" "guardduty", constraint)] /\
    pick policy_outcome (events o)
    = [(PyStr.replace (S3BucketName trail) "logs" "guardduty",
        dumps (bucket_policy (PyStr.replace (S3BucketName trail) "logs" "guardduty")
                 key),
        policy_answer)] /\
    (forall arn, In (key_alias, inr arn) (pick key_lookup (events o)) -> key = arn) /\
    match policy_answer with
    | inl e => res o = inl e
    | inr _ =>
        exists encryption_answer,
          pick encryption_outcome (events o)
          = [(PyStr.replace (S3BucketName trail) "logs" "guardduty", "AES256",
              encryption_answer)] /\
          res o = match encryption_answer with
                  | inl e => inl e
                  | inr _ =>
                      inr (mkDestination
                             ("arn:aws:s3:::"
                                +:+ PyStr.replace (S3BucketName trail) "logs" "guardduty")
                             key)
                  end
    end.
Proof.
  intros o.
  assert (Ho : o = create_s3_destination sts_session s) by reflexivity.
  clearbody o. revert Ho.
  unfold create_s3_destination, create_kms_key, assume_role.
  run.
  all: intros ->;
    cbn [res final events pick omap list_omap app key_lookup bucket_creation
         trail_listing role_request policy_outcome encryption_outcome].
  all: try (left; split;
              [ done
              | intros ? ? ? Hin; cbn [In] in Hin; destruct_or?; by simplify_eq ]).
  all: right; do 5 eexists; (split; [reflexivity|]); (split; [reflexivity|]);
    (split; [reflexivity|]).
  all: split;
    [ cbn [In]; intros arn Hin; destruct_or?; by simplify_eq | ].
  all: try reflexivity.
  all: eexists; split; reflexivity.
Qed.

(** C5. Whenever [describe_key] for the alias is answered with the ARN of
    an existing key during [create_s3_destination], no [create_key]
    request is sent, and the properties that [create_s3_destination]
    returns carry that ARN in [KmsKeyArn]. The run does go on from the
    lookup: the bucket policy is put with that ARN as its key, and when
    the policy and the encryption requests are accepted the function
    returns the destination with that ARN; otherwise it raises the error
    of the request that was refused. *)
Theorem create_s3_destination_reuses_key sts_session s arn :
  In (key_alias, inr arn)
     (pick key_lookup (events (create_s3_destination sts_session s))) ->
  key_alias = "alias/controltower/guardduty" /\
  pick key_creation (events (create_s3_destination sts_session s)) = [] /\
  (forall props,
     res (create_s3_destination sts_session s) = inr props -> KmsKeyArn props = arn) /\
  exists bucket policy_answer,
    pick policy_outcome (events (create_s3_destination sts_session s))
    = [(bucket, dumps (bucket_policy bucket arn), policy_answer)] /\
    match policy_answer with
    | inl e => res (create_s3_destination sts_session s) = inl e
    | inr _ =>
        exists encryption_answer,
          pick encryption_outcome (events (create_s3_destination sts_session s))
          = [(bucket, "AES256", encryption_answer)] /\
          res (create_s3_destination sts_session s)
          = match encryption_answer with
            | inl e => inl e
            | inr _ => inr (mkDestination ("arn:aws:s3:::" +:+ bucket) arn)
            end
    end.
Proof.
  intros Hin. split; [done|].
  destruct (create_s3_destination_run sts_session s)
    as [(Hnone & _)|(trail & trails & _ & _ & _ & _ & Hkey)].
  { rewrite Hnone in Hin. destruct Hin. }
  destruct (Hkey _ Hin) as (Hcreation & Hprops).
  split_and!; [done..|]. clear Hkey.
  destruct (create_s3_destination_completion sts_session s)
    as [(Hnone & _)
       |(trail' & trails' & constraint & key & answer & _ & _ & Hpolicy & Hkey & Hrest)].
  { rewrite Hnone in Hin. destruct Hin. }
  rewrite (Hkey _ Hin) in Hpolicy, Hrest. eauto.
Qed.

(** C8. Whatever bucket name the trail has, every S3 request of
    [create_s3_destination] names the bucket obtained from it by replacing
    ["logs"] literally by ["guardduty"], and the returned destination is
    the ARN of that bucket; the trail bucket
    [aws-controltower-logs-123456789012-us-east-1] gives
    [aws-controltower-guardduty-123456789012-us-east-1]. The name is put
    to use: once the role in the log account is assumed, the bucket is
    requested under the derived name and the policy is put on it, and when
    the policy and the encryption requests are accepted the function
    returns the ARN of the derived name. *)
Theorem create_s3_destination_bucket_name sts_session s trail trails :
  In (inr (trail :: trails))
     (pick trail_listing (events (create_s3_destination sts_session s))) ->
  let derived := PyStr.replace (S3BucketName trail) "logs" "guardduty" in
  PyStr.Replaced "logs" "guardduty" (S3BucketName trail) derived /\
  Forall (eq derived) (pick s3_bucket (events (create_s3_destination sts_session s))) /\
  (forall props,
     res (create_s3_destination sts_session s) = inr props ->
     DestinationArn props = "arn:aws:s3:::" +:+ derived) /\
  PyStr.replace "aws-controltower-logs-123456789012-us-east-1" "logs" "guardduty"
  = "aws-controltower-guardduty-123456789012-us-east-1" /\
  (forall role_arn name credentials,
     In (role_arn, name, inr credentials)
        (pick role_request (events (create_s3_destination sts_session s))) ->
     exists constraint key policy_answer,
       pick bucket_creation (events (create_s3_destination sts_session s))
       = [(derived, constraint)] /\
       pick policy_outcome (events (create_s3_destination sts_session s))
       = [(derived, dumps (bucket_policy derived key), policy_answer)] /\
       match policy_answer with
       | inl e => res (create_s3_destination sts_session s) = inl e
       | inr _ =>
           exists encryption_answer,
             pick encryption_outcome (events (create_s3_destination sts_session s))
             = [(derived, "AES256", encryption_answer)] /\
             res (create_s3_destination sts_session s)
             = match encryption_answer with
               | inl e => inl e
               | inr _ => inr (mkDestination ("arn:aws:s3:::" +:+ derived) key)
               end
       end).
Proof.
  intros Hin derived.
  split; [by apply PyStrFacts.replace_Replaced|].
  assert (Hrun := create_s3_destination_run sts_session s).
  destruct Hrun as [(_ & _ & _ & Hnone & _)|(trail' & trails' & Htrail & Hb & Harn & _)].
  { destruct (Hnone _ _ Hin). }
  rewrite Htrail in Hin. destruct Hin as [Heq|[]]. simplify_eq.
  split_and!; [done..|].
  intros role_arn name credentials Hrole.
  destruct (create_s3_destination_completion sts_session s)
    as [(_ & Hnorole)
       |(trail'' & trails'' & constraint & key & answer & Htrail' & Hbucket & Hpolicy
           & _ & Hrest)].
  { destruct (Hnorole _ _ _ Hrole). }
  rewrite Htrail in Htrail'. simplify_eq. fold derived in Hbucket, Hpolicy, Hrest.
  exists constraint, key, answer. done.
Qed.

(** C9. In every [create_bucket] request of [create_s3_destination]: when
    the home region of the trail is one of the ten allowed regions, the
    location constraint is that region; otherwise, when its name starts
    with ["eu"], the constraint is ["EU"]; otherwise there is none. *)
Theorem create_s3_destination_location_constraint sts_session s trail trails
    bucket constraint :
  In (inr (trail :: trails))
     (pick trail_listing (events (create_s3_destination sts_session s))) ->
  In (bucket, constraint)
     (pick bucket_creation (events (create_s3_destination sts_session s))) ->
  let region := HomeRegion trail in
  length allowed_regions = 10 /\
  (In region allowed_regions -> constraint = Some region) /\
  (~ In region allowed_regions -> (exists rest, region = "eu" +:+ rest) ->
   constraint = Some "EU") /\
  (~ In region allowed_regions -> ~ (exists rest, region = "eu" +:+ rest) ->
   constraint = None).
Proof.
  intros Hin Hbucket region. split; [done|].
  destruct (create_s3_destination_run sts_session s)
    as [(_ & _ & _ & Hnone & _)|(trail' & trails' & Htrail & _ & _ & Hc & _)].
  { destruct (Hnone _ _ Hin). }
  rewrite Htrail in Hin. destruct Hin as [Heq|[]]. simplify_eq.
  specialize (Hc _ _ Hbucket). fold region in Hc.
  destruct (py_in region allowed_regions) eqn:Hallowed.
  - apply PyStrFacts.py_in_In in Hallowed. split_and!; done.
  - assert (~ In region allowed_regions) as Hout.
    { rewrite <- PyStrFacts.py_in_In. by rewrite Hallowed. }
    destruct (PyStr.startswith region "eu") eqn:Heu.
    + apply PyStrFacts.startswith_split in Heu. split_and!; done.
    + assert (~ exists rest, region = "eu" +:+ rest) as Hnoeu.
      { rewrite <- PyStrFacts.startswith_split. by rewrite Heu. }
      split_and!; done.
Qed.

End ModuleFacts.

(** ** The module at work on concrete surroundings *)

Section Examples.
Import Scenario.

Lemma handler_reports_success_once_witness :
  res (handler_setup (H := healthy) start)
  = inr (["us-east-1"; "eu-west-1"], master_session, destination) /\
  pick callback (events (handler (H := healthy) event context start))
  = [("SUCCESS", JObj [("Data", JInt 120)], None, false)].
Proof.
  assert (Hsetup : res (handler_setup (H := healthy) start)
                   = inr (["us-east-1"; "eu-west-1"], master_session, destination))
    by (vm_compute; reflexivity).
  split; [exact Hsetup|].
  exact (proj1 (proj2 (handler_reports_success_once (H := healthy)
                         event context start _ _ _ Hsetup))).
Defined.


(** C3, as stated, fails: with an empty detector list [enable_gd_member]
    does not return normally, it raises [IndexError] at
    [detector_ids['DetectorIds'][0]]. *)
Lemma empty_detector_list_raises :
  pick detector_listing
    (events (enable_gd_member (H := env no_detector) master_session "us-east-1"
               destination start))
  = [("us-east-1", inr [])] /\
  res (enable_gd_member (H := env no_detector) master_session "us-east-1"
         destination start)
  = inl IndexError /\
  res (enable_gd_member (H := env no_detector) master_session "us-east-1"
         destination start)
  <> inr tt.
Proof. vm_compute. split_and!; [reflexivity..|discriminate]. Qed.

Lemma enable_gd_member_no_detector_witness :
  oracle (Env := env no_detector) (GdListDetectors master_session "us-east-1")
    (world start) = (inr [], tt) /\
  pick publishing_request
    (events (enable_gd_member (H := env no_detector) master_session "us-east-1"
               destination start)) = [] /\
  failed_members
    (final (enable_gd_member (H := env no_detector) master_session "us-east-1"
              destination start)) = failed_members start.
Proof.
  assert (Hlist : oracle (Env := env no_detector)
                    (GdListDetectors master_session "us-east-1") (world start)
                  = (inr [], tt)) by reflexivity.
  pose proof (enable_gd_member_no_detector (H := env no_detector)
                master_session "us-east-1" destination start tt Hlist) as Hthm.
  split; [exact Hlist|].
  split; [exact (proj1 Hthm) | exact (proj1 (proj2 (proj2 (proj2 Hthm))))].
Defined.

(** C4 (defect in the code). [create_members] is refused with a client
    error in both regions. The error is caught, but the handler of
    [except ClientError] itself raises while it builds [{account: repr(e)}],
    so nothing is written to [failed_members]; the loop logs the regions
    as failed and goes on, and no entry is keyed by either region. *)
Theorem member_failure_not_keyed_by_region :
  let o := handler (H := env members_refused) event context start in
  map (fun r => (fst (fst r), snd r)) (pick member_request (events o))
  = [("us-east-1", inl (ClientError "BadRequestException"));
     ("eu-west-1", inl (ClientError "BadRequestException"))] /\
  res o = inr tt /\
  failed_members (final o) !! "us-east-1" = None /\
  failed_members (final o) !! "eu-west-1" = None /\
  failed_members (final o) = ∅.
Proof. vm_compute. split_and!; reflexivity. Qed.

(** The one path that does write to [failed_members] uses the literal key
    ["region"], whatever the region is. *)
Lemma unprocessed_member_keyed_by_literal :
  let o := handler (H := env member_unprocessed) event context start in
  failed_members (final o) !! "us-east-1" = None /\
  failed_members (final o) !! "eu-west-1" = None /\
  failed_members (final o) !! "region"
  = Some [UnprocessedAccounts [mkUnprocessed "333333333333" "already a member"]].
Proof. vm_compute. split_and!; reflexivity. Qed.

Lemma create_s3_destination_reuses_key_witness :
  In (key_alias, inr "arn:aws:kms:us-east-1:111111111111:key/existing")
     (pick key_lookup
        (events (create_s3_destination (H := healthy) master_session start))) /\
  pick key_creation
    (events (create_s3_destination (H := healthy) master_session start)) = [] /\
  res (create_s3_destination (H := healthy) master_session start)
  = inr (mkDestination
           "arn:aws:s3:::aws-controltower-guardduty-123456789012-us-east-1"
           "arn:aws:kms:us-east-1:111111111111:key/existing").
Proof.
  assert (Hin : In (key_alias, inr "arn:aws:kms:us-east-1:111111111111:key/existing")
                  (pick key_lookup
                     (events (create_s3_destination (H := healthy)
                                master_session start))))
    by (vm_compute; left; reflexivity).
  assert (Hpolicy : map (fun r => (fst (fst r), snd r))
                      (pick policy_outcome
                         (events (create_s3_destination (H := healthy)
                                    master_session start)))
                    = [("aws-controltower-guardduty-123456789012-us-east-1", inr tt)])
    by (vm_compute; reflexivity).
  assert (Hencryption : map snd
                          (pick encryption_outcome
                             (events (create_s3_destination (H := healthy)
                                        master_session start)))
                        = [inr tt])
    by (vm_compute; reflexivity).
  split; [exact Hin|].
  destruct (create_s3_destination_reuses_key (H := healthy) master_session start _ Hin)
    as (_ & Hnone & _ & bucket & policy_answer & Hp & Hrest).
  split; [exact Hnone|].
  rewrite Hp in Hpolicy. injection Hpolicy as -> ->.
  destruct Hrest as (encryption_answer & He & Hres).
  rewrite He in Hencryption. injection Hencryption as ->.
  exact Hres.
Defined.

(** C6 (defect in the code). [enable_organization_admin_account] is
    refused in both regions, and [failed_regions] is still empty at the end
    of the run: [enable_gd_master] never appends to it. *)
Theorem master_failure_not_recorded :
  let o := handler (H := env master_refused) event context start in
  pick admin_request (events o)
  = [("us-east-1", inl (ClientError "AccessDeniedException"));
     ("eu-west-1", inl (ClientError "AccessDeniedException"))] /\
  res o = inr tt /\
  failed_regions (final o) = [].
Proof. vm_compute. split_and!; reflexivity. Qed.

(** The sibling [disable_gd_master] does record the region it fails in. *)
Lemma disable_gd_master_records_example :
  failed_regions
    (final (disable_gd_master
              (H := env (fun c =>
                 match c as c0 return exn + resp_of c0 with
                 | GdDisableOrganizationAdminAccount _ _ _ =>
                     inl (ClientError "AccessDeniedException")
                 | other => fine "us-east-1" other
                 end))
              "us-east-1" start))
  = ["us-east-1"].
Proof. vm_compute. reflexivity. Qed.

Lemma enable_gd_member_roster_witness :
  In (inr accounts)
     (pick account_listing
        (events (enable_gd_member (H := healthy) master_session "us-east-1"
                   destination start))) /\
  count_occ string_dec (map Id accounts) master_id = 1 /\
  exists details answer,
    pick member_request
      (events (enable_gd_member (H := healthy) master_session "us-east-1"
                 destination start))
    = [("us-east-1", details, answer)] /\
    length details = 2.
Proof.
  assert (Hin : In (inr accounts)
                  (pick account_listing
                     (events (enable_gd_member (H := healthy) master_session
                                "us-east-1" destination start))))
    by (vm_compute; left; reflexivity).
  assert (Hcount : count_occ string_dec (map Id accounts) master_id = 1)
    by (vm_compute; reflexivity).
  split; [exact Hin|]. split; [exact Hcount|].
  destruct (enable_gd_member_roster (H := healthy) master_session "us-east-1"
              destination start accounts Hin Hcount)
    as (details & answer & Hreq & _ & Hlen & _).
  exists details, answer. split; [exact Hreq | exact Hlen].
Defined.

Lemma create_s3_destination_bucket_name_witness :
  In (inr [mkTrail trail_bucket (Some "o-abc") "us-east-1"])
     (pick trail_listing
        (events (create_s3_destination (H := healthy) master_session start))) /\
  In ("arn:aws:iam::123456789012:role/AWSControlTowerExecution", "EnableGuardDuty",
      inr (mkCredentials "AKIA" "secret" "token"))
     (pick role_request
        (events (create_s3_destination (H := healthy) master_session start))) /\
  Forall (eq (PyStr.replace trail_bucket "logs" "guardduty"))
    (pick s3_bucket
       (events (create_s3_destination (H := healthy) master_session start))) /\
  (exists constraint,
     pick bucket_creation
       (events (create_s3_destination (H := healthy) master_session start))
     = [("aws-controltower-guardduty-123456789012-us-east-1", constraint)]) /\
  (exists key,
     res (create_s3_destination (H := healthy) master_session start)
     = inr (mkDestination
              "arn:aws:s3:::aws-controltower-guardduty-123456789012-us-east-1" key)).
Proof.
  assert (Hin : In (inr [mkTrail trail_bucket (Some "o-abc") "us-east-1"])
                  (pick trail_listing
                     (events (create_s3_destination (H := healthy)
                                master_session start))))
    by (vm_compute; left; reflexivity).
  assert (Hrole : In ("arn:aws:iam::123456789012:role/AWSControlTowerExecution",
                      "EnableGuardDuty", inr (mkCredentials "AKIA" "secret" "token"))
                    (pick role_request
                       (events (create_s3_destination (H := healthy)
                                  master_session start))))
    by (vm_compute; left; reflexivity).
  assert (Hpolicy : map snd
                      (pick policy_outcome
                         (events (create_s3_destination (H := healthy)
                                    master_session start)))
                    = [inr tt])
    by (vm_compute; reflexivity).
  assert (Hencryption : map snd
                          (pick encryption_outcome
                             (events (create_s3_destination (H := healthy)
                                        master_session start)))
                        = [inr tt])
    by (vm_compute; reflexivity).
  split; [exact Hin|]. split; [exact Hrole|].
  destruct (create_s3_destination_bucket_name (H := healthy) master_session start
              _ _ Hin)
    as (_ & Hall & _ & _ & Huse).
  split; [exact Hall|].
  destruct (Huse _ _ _ Hrole) as (constraint & key & policy_answer & Hb & Hp & Hrest).
  split; [exists constraint; exact Hb|].
  rewrite Hp in Hpolicy. injection Hpolicy as ->.
  destruct Hrest as (encryption_answer & He & Hres).
  rewrite He in Hencryption. injection Hencryption as ->.
  exists key. exact Hres.
Defined.

Lemma create_s3_destination_location_constraint_witness :
  In (inr [mkTrail trail_bucket (Some "o-abc") "eu-west-3"])
     (pick trail_listing
        (events (create_s3_destination (H := env (fine "eu-west-3"))
                   master_session start))) /\
  In ("aws-controltower-guardduty-123456789012-us-east-1", Some "EU")
     (pick bucket_creation
        (events (create_s3_destination (H := env (fine "eu-west-3"))
                   master_session start))) /\
  length allowed_regions = 10.
Proof.
  assert (Hin : In (inr [mkTrail trail_bucket (Some "o-abc") "eu-west-3"])
                  (pick trail_listing
                     (events (create_s3_destination (H := env (fine "eu-west-3"))
                                master_session start))))
    by (vm_compute; left; reflexivity).
  assert (Hb : In ("aws-controltower-guardduty-123456789012-us-east-1", Some "EU")
                 (pick bucket_creation
                    (events (create_s3_destination (H := env (fine "eu-west-3"))
                               master_session start))))
    by (vm_compute; left; reflexivity).
  split; [exact Hin|]. split; [exact Hb|].
  exact (proj1 (create_s3_destination_location_constraint
                  (H := env (fine "eu-west-3")) master_session start _ _ _ _ Hin Hb)).
Defined.

(** The three regions of the specification *)
Example location_constraint_examples :
  pick bucket_creation
    (events (create_s3_destination (H := env (fine "ap-south-1")) master_session start))
  = [("aws-controltower-guardduty-123456789012-us-east-1", Some "ap-south-1")] /\
  pick bucket_creation
    (events (create_s3_destination (H := env (fine "eu-west-3")) master_session start))
  = [("aws-controltower-guardduty-123456789012-us-east-1", Some "EU")] /\
  pick bucket_creation
    (events (create_s3_destination (H := env (fine "us-east-1")) master_session start))
  = [("aws-controltower-guardduty-123456789012-us-east-1", None)].
Proof. vm_compute. split_and!; reflexivity. Qed.

Lemma cfnresponse_round_trip_witness :
  wf (JObj [("Data", JInt 120)]) /\
  responseBody_of event context "SUCCESS" (JObj [("Data", JInt 120)])
    default_physicalResourceId default_noEcho = inr response_body /\
  exists decoded,
    decode (utf8_encode (dumps (JObj response_body))) = Some decoded /\
    field "NoEcho" decoded = Some (JBool false) /\
    field "PhysicalResourceId" decoded = Some (JStr (log_stream_name context)) /\
    field "Data" decoded = Some (JObj [("Data", JInt 120)]).
Proof.
  assert (Hwf : wf (JObj [("Data", JInt 120)])).
  { apply JsonFacts.wf_obj. split; [cbn; compute_done | repeat constructor; done]. }
  assert (Hbody : responseBody_of event context "SUCCESS" (JObj [("Data", JInt 120)])
                    default_physicalResourceId default_noEcho = inr response_body)
    by (vm_compute; reflexivity).
  pose proof (cfnresponse_round_trip (H := healthy) event context "SUCCESS"
                (JObj [("Data", JInt 120)]) default_physicalResourceId
                default_noEcho response_body Hwf Hbody) as Hthm.
  cbv zeta in Hthm.
  destruct Hthm as (_ & decoded & Hdecode & _ & _ & _ & _ & _ & _ & _ & _ & _
                      & Hdata & Hecho & Hphys).
  split; [exact Hwf|]. split; [exact Hbody|].
  exists decoded. split; [exact Hdecode|].
  split; [exact (Hecho eq_refl)|]. split; [exact (Hphys eq_refl) | exact Hdata].
Defined.

(** The body the handler sends in the healthy surroundings decodes to the
    payload. *)
Example handler_wire_decodes :
  map (fun r => decode (snd (fst r)))
    (pick http_put (events (handler (H := healthy) event context start)))
  = [Some (JObj response_body)].
Proof. vm_compute. reflexivity. Qed.

End Examples.

(** * Further facts *)

(** ** More on strings *)

Module PyStrMore.
Import PyStr PyStrFacts JsonFacts.

Lemma prefix_nil_l s : String.prefix EmptyString s = true.
Proof. by destruct s. Qed.

Lemma contains_split old s :
  py_contains old s = true <-> exists a b, s = a +:+ old +:+ b.
Proof.
  split.
  - induction s as [|c s IH]; cbn [py_contains].
    + intros Hp. apply prefix_split in Hp as [rest Hrest]. by exists EmptyString, rest.
    + intros [Hp|Hc]%orb_true_iff.
      * apply prefix_split in Hp as [rest Hrest]. by exists EmptyString, rest.
      * destruct (IH Hc) as (a & b & ->). by exists (String c a), b.
  - intros (a & b & ->). induction a as [|c a IH].
    + rewrite append_nil.
      assert (Hp : String.prefix old (old +:+ b) = true) by (apply prefix_split; eauto).
      destruct (old +:+ b); cbn [py_contains]; [done|]. by rewrite Hp.
    + rewrite append_cons. cbn [py_contains]. rewrite IH. apply orb_true_r.
Qed.

Lemma replace_from_without old new s :
  py_contains old s = false -> replace_from old new 0 s = s.
Proof.
  induction s as [|c s IH]; [done|]. cbn [py_contains replace_from].
  intros [Hp Hc]%orb_false_iff. by rewrite Hp, IH.
Qed.

Lemma replace_from_length old new s :
  old <> EmptyString -> String.length old <= String.length new ->
  String.length s <= String.length (replace_from old new 0 s) /\
  (py_contains old s = true -> String.length old < String.length new ->
   String.length s < String.length (replace_from old new 0 s)).
Proof.
  intros Hold Hle.
  remember (String.length s) as n eqn:Hn.
  revert s Hn. induction n as [n IH] using lt_wf_ind. intros s ->.
  destruct s as [|c s].
  { split; [done|]. cbn [py_contains]. intros Hp.
    apply prefix_split in Hp as [rest Hrest]. destruct old; [done|].
    by rewrite append_cons in Hrest. }
  cbn [replace_from py_contains].
  destruct (String.prefix old (String c s)) eqn:Hp.
  - apply prefix_split in Hp as [rest Hrest].
    destruct old as [|c0 old']; [done|].
    rewrite append_cons in Hrest. injection Hrest as -> ->.
    replace (String.length (String c0 old') - 1) with (String.length old')
      by (cbn [String.length]; lia).
    rewrite replace_from_skip, length_append.
    destruct (IH (String.length rest)) with (s := rest) as [IH1 _]; [|done|].
    { cbn [String.length]. rewrite length_append. lia. }
    cbn [String.length] in *. rewrite length_append. split; [lia|]. intros _ ?. lia.
  - cbn [orb String.length].
    destruct (IH (String.length s)) with (s := s) as [IH1 IH2]; [cbn; lia|done|].
    split; [lia|]. intros Hc Hlt. specialize (IH2 Hc Hlt). lia.
Qed.

Lemma split_from_skip sep o cur rest :
  split_from sep (String.length o) cur (o +:+ rest) = split_from sep 0 cur rest.
Proof.
  induction o as [|c o IH]; [done|].
  rewrite append_cons. cbn [String.length split_from]. apply IH.
Qed.

Lemma split_from_nonempty sep cur s : split_from sep 0 cur s <> [].
Proof.
  revert cur. induction s as [|c s IH]; intros cur; cbn [split_from]; [done|].
  destruct (String.prefix sep (String c s)); [done|apply IH].
Qed.

Lemma split_from_without sep cur s :
  py_contains sep s = false -> split_from sep 0 cur s = [cur +:+ s].
Proof.
  revert cur. induction s as [|c s IH]; intros cur; cbn [py_contains split_from].
  - intros _. by rewrite append_nil_r.
  - intros [Hp Hc]%orb_false_iff. rewrite Hp, IH by done.
    by rewrite append_assoc, append_cons, append_nil.
Qed.

Lemma join_cons sep x l :
  l <> [] -> py_join sep (x :: l) = x +:+ sep +:+ py_join sep l.
Proof. by destruct l. Qed.

Lemma join_split_from sep s cur :
  sep <> EmptyString -> py_join sep (split_from sep 0 cur s) = cur +:+ s.
Proof.
  intros Hsep.
  remember (String.length s) as n eqn:Hn.
  revert s cur Hn. induction n as [n IH] using lt_wf_ind. intros s cur ->.
  destruct s as [|c s]; cbn [split_from].
  { cbn [py_join]. by rewrite append_nil_r. }
  destruct (String.prefix sep (String c s)) eqn:Hp.
  - apply prefix_split in Hp as [rest Hrest].
    destruct sep as [|c0 sep']; [done|].
    rewrite append_cons in Hrest. injection Hrest as -> ->.
    replace (String.length (String c0 sep') - 1) with (String.length sep')
      by (cbn [String.length]; lia).
    rewrite split_from_skip, join_cons by apply split_from_nonempty.
    rewrite (IH (String.length rest)); [|cbn [String.length]; rewrite length_append; lia|done].
    by rewrite append_nil, <- append_cons.
  - rewrite (IH (String.length s)); [|cbn [String.length]; lia|done].
    by rewrite append_assoc, append_cons, append_nil.
Qed.

End PyStrMore.

(** X1. Joining the segments of [s.split(sep)] with [sep] gives [s] back,
    and there is always at least one segment. *)
Theorem split_join s sep l :
  PyStr.split s sep = Some l -> l <> [] /\ py_join sep l = s.
Proof.
  unfold PyStr.split. destruct sep as [|c sep'] eqn:Hsep; [done|].
  intros [= <-]. split; [apply PyStrMore.split_from_nonempty|].
  by rewrite PyStrMore.join_split_from.
Qed.

(** X2. [s.replace(old, new)] is [s] itself when [old] does not occur in
    [s]; when it does occur and [new] is longer than [old], the result is
    longer than [s]. *)
Theorem replace_occurrence s old new :
  (py_contains old s = false -> PyStr.replace s old new = s) /\
  (py_contains old s = true -> String.length old < String.length new ->
   String.length s < String.length (PyStr.replace s old new)) /\
  (py_contains old s = true <-> exists a b, s = a +:+ old +:+ b).
Proof.
  split_and!.
  - destruct old as [|c old].
    { destruct s; cbn [py_contains]; by rewrite ?PyStrMore.prefix_nil_l. }
    apply PyStrMore.replace_from_without.
  - intros Hc Hlt. destruct old as [|c old].
    + clear Hc. cbn [PyStr.replace]. induction s as [|x s IH]; cbn [PyStr.interleave].
      * done.
      * rewrite PyStrFacts.length_append. cbn [String.length] in *. lia.
    + apply PyStrMore.replace_from_length; [done|lia|done|done].
  - apply PyStrMore.contains_split.
Qed.

(** Like [run], with the further readings of the events. *)
Ltac run_views :=
  cbn [res final events world failed_regions failed_members app pick omap
     list_omap
     request identity_answer role_request bucket_outcome s3_session
     policy_request encryption_request kms_client key_request alias_request
     autoenable_outcome publishing_outcome disable_outcome put_outcome
     callback master_call member_call admin_request detector_listing
     publishing_request account_listing member_request trail_listing
     bucket_creation s3_bucket key_lookup key_creation http_put].

Ltac run_all := run_red; repeat (run_case; run_red); run_views.

(** Names the outcome of a computation, so that it is run once. *)
Ltac name_outcome o m :=
  let Ho := fresh "Hrun" in
  assert (Ho : o = m) by reflexivity; clearbody o; revert Ho.

Section MoreModuleFacts.
Context {W : Type} `{Env W}.

(** ** The access broker *)

(** X3. Whenever [assume_role] sends its [sts.assume_role] request, the
    session name is ['EnableGuardDuty'], the role ARN is built from the
    second colon-separated field of the caller's ARN, the account and the
    role name, and the function returns the session of exactly the
    credentials answered, or raises exactly the error answered; neither
    failure record is touched. *)
Theorem assume_role_request aws_account_number role_name s role_arn name answer :
  let o := assume_role aws_account_number role_name s in
  In (role_arn, name, answer) (pick role_request (events o)) ->
  name = "EnableGuardDuty" /\
  res o = match answer with
          | inl e => inl e
          | inr credentials => inr (StsSession credentials)
          end /\
  failed_regions (final o) = failed_regions s /\
  failed_members (final o) = failed_members s /\
  exists arn parts partition,
    pick identity_answer (events o) = [inr arn] /\
    PyStr.split arn ":" = Some parts /\
    nth_error parts 1 = Some partition /\
    role_arn = "arn:" +:+ partition +:+ ":iam::" +:+ aws_account_number
                 +:+ ":role/" +:+ role_name.
Proof.
  intros o. name_outcome o (assume_role aws_account_number role_name s).
  unfold assume_role. run_all.
  all: intros ->; run_views; cbn [In]; intros Hin; destruct_or?; simplify_eq; try done.
  all: split_and!; try done; do 3 eexists; split_and!; try done.
Qed.

(** X4. When the caller's ARN has no colon in it, [assume_role] raises
    [IndexError] and sends no [sts.assume_role] request. *)
Theorem assume_role_without_partition aws_account_number role_name s arn :
  let o := assume_role aws_account_number role_name s in
  In (inr arn) (pick identity_answer (events o)) ->
  py_contains ":" arn = false ->
  res o = inl IndexError /\ pick role_request (events o) = [].
Proof.
  intros o. name_outcome o (assume_role aws_account_number role_name s).
  unfold assume_role. run_red.
  destruct (oracle _ _) as [[e|arn0] w] eqn:Horacle; run_red.
  - intros ->. run_views. cbn [In]. intros Hin; destruct_or?; simplify_eq.
  - destruct (py_contains ":" arn0) eqn:Hc.
    + repeat (run_case; run_red); intros ->; run_views; cbn [In]; intros Hin;
        destruct_or?; simplify_eq; congruence.
    + unfold PyStr.split.
      rewrite (PyStrMore.split_from_without ":" EmptyString arn0 Hc).
      run_red. intros ->. run_views. done.
Qed.

End MoreModuleFacts.

Section MasterFacts.
Context {W : Type} `{Env W}.

(** ** The master enabler and its undoing *)

(** X5. [enable_gd_master] sends one request, through the function's own
    session, naming the configured master account; it returns normally
    whatever the answer is and leaves both failure records as they
    were. *)
Theorem enable_gd_master_swallows region s :
  let o := enable_gd_master region s in
  res o = inr tt /\
  pick request (events o)
  = [GdEnableOrganizationAdminAccount DefaultSession region gdmaster_account_number] /\
  failed_regions (final o) = failed_regions s /\
  failed_members (final o) = failed_members s.
Proof.
  intros o. name_outcome o (enable_gd_master region s).
  unfold enable_gd_master. run_all; intros ->; run_views; done.
Qed.

(** X6. [disable_gd_master] sends one request and returns normally whatever
    the answer is; when the request fails, the region is appended to
    [failed_regions], and otherwise [failed_regions] is left as it was;
    [failed_members] is never touched. *)
Theorem disable_gd_master_records_failure region s :
  let o := disable_gd_master region s in
  res o = inr tt /\
  pick request (events o)
  = [GdDisableOrganizationAdminAccount DefaultSession region gdmaster_account_number] /\
  failed_members (final o) = failed_members s /\
  exists answer,
    pick disable_outcome (events o) = [answer] /\
    failed_regions (final o)
    = match answer with
      | inl _ => failed_regions s ++ [region]
      | inr _ => failed_regions s
      end.
Proof.
  intros o. name_outcome o (disable_gd_master region s).
  unfold disable_gd_master. run_all; intros ->; run_views;
    split_and!; try done; eexists; split; reflexivity.
Qed.

End MasterFacts.

Section EnrollerFacts.
Context {W : Type} `{Env W}.

(** ** The member enroller, path by path *)

Lemma roster_loop_from accounts details account :
  roster_loop accounts details account
  = (details ++
       map (fun a => mkAccountDetail (Id a) (Email a))
         (filter (fun a => Id a <> gdmaster_account_number) accounts),
     last (from_option (fun a => [a]) [] account ++ accounts)).
Proof.
  revert details account.
  induction accounts as [|a accounts IH]; intros details account;
    cbn [roster_loop].
  - rewrite !app_nil_r. by destruct account.
  - cbv zeta. rewrite IH. f_equal.
    + rewrite filter_cons.
      destruct (String.eqb_spec (Id a) gdmaster_account_number) as [Heq|Hne];
        cbn [negb]; case_decide; try done.
      by rewrite <- app_assoc.
    + cbn [from_option app]. destruct account as [b|]; cbn [from_option app].
      * by rewrite !last_cons_cons.
      * done.
Qed.

(** X7. The roster is the list of the accounts whose id differs from the
    master's, in the order of the listing, each with its own email; the
    loop variable is left on the last account listed. *)
Theorem roster_is_filter accounts :
  roster accounts
  = map (fun a => mkAccountDetail (Id a) (Email a))
      (filter (fun a => Id a <> gdmaster_account_number) accounts) /\
  snd (roster_loop accounts [] None) = last accounts /\
  length (roster accounts) +
  count_occ string_dec (map Id accounts) gdmaster_account_number
  = length accounts.
Proof.
  unfold roster. rewrite roster_loop_from. split_and!; [done|done|].
  rewrite <- (roster_loop_from accounts [] None).
  apply (roster_loop_length accounts [] None).
Qed.

(** X8. When [list_detectors] fails, [enable_gd_member] returns normally:
    it has sent no other request and has recorded nothing. *)
Theorem enable_gd_member_lookup_fails session region properties s e :
  let o := enable_gd_member session region properties s in
  In (region, inl e) (pick detector_listing (events o)) ->
  res o = inr tt /\
  pick request (events o) = [GdListDetectors session region] /\
  failed_regions (final o) = failed_regions s /\
  failed_members (final o) = failed_members s.
Proof.
  intros o. name_outcome o (enable_gd_member session region properties s).
  unfold enable_gd_member, account_keyed_dict. run_all.
  all: intros ->; run_views; cbn [In]; intros Hin; destruct_or?; simplify_eq; done.
Qed.

(** X9. Every request of [enable_gd_member] goes through the session and
    the region it was given, and all of them that name a detector name the
    first one listed: the requests are, in this order and as far as the run
    gets, listing the detectors, the publishing destination of type ['S3']
    with the properties as given and the detector id as client token,
    listing the accounts, creating the members of the roster, and switching
    auto-enable on. *)
Theorem enable_gd_member_requests session region properties s detector_id ids :
  let o := enable_gd_member session region properties s in
  In (region, inr (detector_id :: ids)) (pick detector_listing (events o)) ->
  exists accounts,
    (forall listed, In (inr listed) (pick account_listing (events o)) ->
                    listed = accounts) /\
    pick request (events o) `prefix_of`
      [ GdListDetectors session region;
        GdCreatePublishingDestination session region detector_id "S3" properties
          detector_id;
        OrganizationsListAccounts session;
        GdCreateMembers session region detector_id (roster accounts);
        GdUpdateOrganizationConfiguration session region detector_id true ].
Proof.
  intros o. name_outcome o (enable_gd_member session region properties s).
  unfold enable_gd_member, account_keyed_dict, roster. run_all.
  all: intros ->; run_views; cbn [In]; intros Hin; destruct_or?; simplify_eq.
  all: lazymatch goal with
       | Ho : oracle (OrganizationsListAccounts _) _ = (inr ?a, _) |- _ => exists a
       | _ => exists []
       end.
  all: split; [ intros listed Hl; cbn [In] in Hl; destruct_or?; by simplify_eq
              | eexists; reflexivity ].
Qed.

(** X10. When [create_publishing_destination] fails, for instance because
    the destination exists already, its error leaves [enable_gd_member] as
    it is: no account is listed, no member is created, auto-enable is not
    switched on and nothing is recorded. *)
Theorem enable_gd_member_publishing_fails session region properties s e :
  let o := enable_gd_member session region properties s in
  In (inl e) (pick publishing_outcome (events o)) ->
  res o = inl e /\
  pick account_listing (events o) = [] /\
  pick member_request (events o) = [] /\
  pick autoenable_outcome (events o) = [] /\
  failed_regions (final o) = failed_regions s /\
  failed_members (final o) = failed_members s.
Proof.
  intros o. name_outcome o (enable_gd_member session region properties s).
  unfold enable_gd_member, account_keyed_dict. run_all.
  all: intros ->; run_views; cbn [In]; intros Hin; destruct_or?; simplify_eq; done.
Qed.

(** X11. When [update_organization_configuration] succeeds,
    [enable_gd_member] returns normally, and [failed_members] is left as
    it was if [create_members] reported no unprocessed account, and
    otherwise gets the reported accounts under the key ["region"],
    replacing what was there. *)
Theorem enable_gd_member_completes session region properties s :
  let o := enable_gd_member session region properties s in
  In (inr tt) (pick autoenable_outcome (events o)) ->
  res o = inr tt /\
  failed_regions (final o) = failed_regions s /\
  exists details unprocessed,
    pick member_request (events o) = [(region, details, inr unprocessed)] /\
    failed_members (final o)
    = match unprocessed with
      | [] => failed_members s
      | _ :: _ => <["region" := [UnprocessedAccounts unprocessed]]> (failed_members s)
      end.
Proof.
  intros o. name_outcome o (enable_gd_member session region properties s).
  unfold enable_gd_member, account_keyed_dict. run_all.
  all: intros ->; run_views; cbn [In]; intros Hin; destruct_or?; simplify_eq.
  all: split_and!; try done; do 2 eexists; split; [reflexivity|].
  all: match goal with
       | Hb : (0 <? length ?l)%nat = _ |- _ => by destruct l
       end.
Qed.

(** X12. When [update_organization_configuration] fails, [enable_gd_member]
    raises and [failed_members] is left as it was, also when
    [create_members] had just reported unprocessed accounts: a client
    error is replaced by the [TypeError] of using the account, a
    dictionary, as a dictionary key (by a [NameError] when no account was
    listed), and any other error is raised as it is. *)
Theorem enable_gd_member_autoenable_fails session region properties s e :
  let o := enable_gd_member session region properties s in
  In (inl e) (pick autoenable_outcome (events o)) ->
  failed_members (final o) = failed_members s /\
  failed_regions (final o) = failed_regions s /\
  (exists details unprocessed,
     pick member_request (events o) = [(region, details, inr unprocessed)]) /\
  exists raised,
    res o = inl raised /\
    (is_ClientError e = false -> raised = e) /\
    (is_ClientError e = true ->
     raised = TypeError "unhashable type: 'dict'" \/ raised = NameError "account").
Proof.
  intros o. name_outcome o (enable_gd_member session region properties s).
  unfold enable_gd_member, account_keyed_dict. run_all.
  all: intros ->; run_views; cbn [In]; intros Hin; destruct_or?; simplify_eq.
  all: split_and!; try done; [by do 2 eexists|].
  all: eexists; split_and!; [reflexivity|..]; intros; try congruence; auto.
Qed.

End EnrollerFacts.

(** ** The encoder writes ASCII *)

Module AsciiFacts.
Import PyStrFacts JsonFacts.

Lemma ascii_only_append a b :
  ascii_only (a +:+ b) = ascii_only a && ascii_only b.
Proof.
  induction a as [|c a IH]; [done|].
  rewrite append_cons. cbn [ascii_only]. by rewrite IH, andb_assoc.
Qed.

Lemma ascii_only_escape_char c : ascii_only (escape_char c) = true.
Proof. destruct c as [[] [] [] [] [] [] [] []]; reflexivity. Qed.

Lemma ascii_only_escape s : ascii_only (escape s) = true.
Proof.
  induction s as [|c s IH]; [done|].
  cbn [escape]. by rewrite ascii_only_append, ascii_only_escape_char, IH.
Qed.

Lemma ascii_only_dumps_str s : ascii_only (dumps_str s) = true.
Proof.
  unfold dumps_str.
  change (ascii_only (String quote (escape s +:+ String quote EmptyString)))
    with (ascii_only (escape s +:+ String quote EmptyString)).
  by rewrite ascii_only_append, ascii_only_escape.
Qed.

Lemma ascii_only_uint u : ascii_only (uint_str u) = true.
Proof. induction u; cbn [uint_str]; try done; exact IHu. Qed.

Lemma ascii_only_int z : ascii_only (int_str z) = true.
Proof. destruct z; cbn [int_str]; [done|..]; apply ascii_only_uint. Qed.

Lemma ascii_only_dumps v : ascii_only (dumps v) = true.
Proof.
  induction v as [|b|z|s|items IH|members IH] using json_ind; cbn [dumps].
  - done.
  - by destruct b.
  - apply ascii_only_int.
  - apply ascii_only_dumps_str.
  - rewrite ascii_only_append. change (ascii_only "[") with true. cbn [andb].
    induction IH as [|x items Hx _ IHitems]; [done|].
    cbn [dumps_items]. destruct items as [|y items].
    + by rewrite ascii_only_append, Hx.
    + rewrite !ascii_only_append, Hx, IHitems. done.
  - rewrite ascii_only_append. change (ascii_only "{") with true. cbn [andb].
    induction IH as [|[k x] members Hx _ IHm]; [done|].
    cbn [dumps_members snd] in *. destruct members as [|[k' y] members].
    + by rewrite !ascii_only_append, ascii_only_dumps_str, Hx.
    + rewrite !ascii_only_append, ascii_only_dumps_str, Hx, IHm. done.
Qed.

Lemma utf8_encode_ascii s :
  ascii_only s = true -> length (utf8_encode s) = String.length s.
Proof.
  induction s as [|c s IH]; [done|]. cbn [ascii_only utf8_encode String.length].
  intros [Hc Hs]%andb_true_iff. rewrite length_app, IH by done.
  unfold utf8_char. by rewrite Hc.
Qed.

End AsciiFacts.

Section CallbackFacts.
Context {W : Type} `{Env W}.

(** ** The callback reporter *)

(** X13. Once the payload is built (the event has the three identifiers),
    [cfnresponse] returns normally whatever happens to the HTTP request: a
    missing response URL, a transport error or a response without a reason
    are caught; at most one PUT is sent, none without a response URL, and
    neither failure record is touched. *)
Theorem cfnresponse_best_effort event context responseStatus responseData
    physicalResourceId noEcho s responseBody :
  responseBody_of event context responseStatus responseData physicalResourceId noEcho
  = inr responseBody ->
  let o := cfnresponse event context responseStatus responseData
             physicalResourceId noEcho s in
  res o = inr tt /\
  length (pick http_put (events o)) <= 1 /\
  (event !! "ResponseURL" = None -> pick request (events o) = []) /\
  failed_regions (final o) = failed_regions s /\
  failed_members (final o) = failed_members s.
Proof.
  intros Hbody o.
  name_outcome o (cfnresponse event context responseStatus responseData
                    physicalResourceId noEcho s).
  unfold cfnresponse. rewrite Hbody. run_all.
  all: intros ->; run_views; cbn [length]; split_and!; try done; lia.
Qed.

(** X14. When the event lacks ['StackId'], ['RequestId'] or
    ['LogicalResourceId'], [cfnresponse] raises [KeyError] for the first
    one missing, in that order, and sends nothing. *)
Theorem cfnresponse_missing_identifier event context responseStatus responseData
    physicalResourceId noEcho s e :
  responseBody_of event context responseStatus responseData physicalResourceId noEcho
  = inl e ->
  let o := cfnresponse event context responseStatus responseData
             physicalResourceId noEcho s in
  res o = inl e /\
  pick request (events o) = [] /\
  ((e = KeyError "StackId" /\ event !! "StackId" = None) \/
   (e = KeyError "RequestId" /\ is_Some (event !! "StackId") /\
    event !! "RequestId" = None) \/
   (e = KeyError "LogicalResourceId" /\ is_Some (event !! "StackId") /\
    is_Some (event !! "RequestId") /\ event !! "LogicalResourceId" = None)).
Proof.
  intros Hbody o.
  name_outcome o (cfnresponse event context responseStatus responseData
                    physicalResourceId noEcho s).
  unfold cfnresponse. rewrite Hbody. run_all. intros ->. run_views.
  split_and!; [done..|].
  unfold responseBody_of in Hbody.
  destruct (event !! "StackId"); [|left; by simplify_eq].
  destruct (event !! "RequestId"); [|right; left; by simplify_eq].
  destruct (event !! "LogicalResourceId"); [done|].
  right; right. by simplify_eq.
Qed.

(** X15. The [content-length] header of the PUT is the decimal number of
    bytes of the body sent, the [content-type] header is empty, and the
    request goes to the event's ['ResponseURL']. *)
Theorem cfnresponse_content_length event context responseStatus responseData
    physicalResourceId noEcho s url body headers :
  let o := cfnresponse event context responseStatus responseData
             physicalResourceId noEcho s in
  In (url, body, headers) (pick http_put (events o)) ->
  headers = [("content-type", EmptyString);
             ("content-length", int_str (Z.of_nat (length body)))] /\
  event !! "ResponseURL" = Some url.
Proof.
  intros o.
  name_outcome o (cfnresponse event context responseStatus responseData
                    physicalResourceId noEcho s).
  unfold cfnresponse.
  destruct (responseBody_of _ _ _ _ _ _) as [e|responseBody]. 
  all: run_all.
  all: intros ->; run_views; cbn [In]; intros Hin; destruct_or?; simplify_eq.
  all: by rewrite AsciiFacts.utf8_encode_ascii by apply AsciiFacts.ascii_only_dumps.
Qed.

End CallbackFacts.

Section HandlerFacts.
Context {W : Type} `{Env W}.

(** ** The entry point as a whole *)

Lemma handler_setup_sends_no_put : respects (silent http_put) handler_setup.
Proof. respects_auto. Qed.

(** X16. When the part of [handler] before the loop raises (the region
    listing, a role assumption or the destination provisioning fails),
    [handler] raises the same error at once: no region is attempted,
    [cfnresponse] is not entered and no HTTP request is sent. *)
Theorem handler_aborts_without_callback event context s e :
  res (handler_setup s) = inl e ->
  res (handler event context s) = inl e /\
  events (handler event context s) = events (handler_setup s) /\
  pick master_call (events (handler event context s)) = [] /\
  pick callback (events (handler event context s)) = [] /\
  pick http_put (events (handler event context s)) = [].
Proof.
  intros Hsetup.
  assert (Hev : events (handler event context s) = events (handler_setup s)).
  { unfold handler. by rewrite bind_events, Hsetup, app_nil_r. }
  rewrite Hev. split_and!; try done.
  - unfold handler. by rewrite bind_res, Hsetup.
  - apply handler_setup_no_region_work.
  - apply handler_setup_no_callback.
  - apply handler_setup_sends_no_put.
Qed.

Lemma handler_report_res event context s :
  res (handler_report event context s)
  = match responseBody_of event context "SUCCESS" (JObj [("Data", JInt 120)])
            default_physicalResourceId default_noEcho with
    | inl e => inl e
    | inr _ => inr tt
    end.
Proof.
  set (o := handler_report event context s).
  name_outcome o (handler_report event context s).
  unfold handler_report, cfnresponse. cbn [dict_set].
  destruct (responseBody_of _ _ _ _ _ _) as [e|body]; run_all; by intros ->.
Qed.

(** X17. Once the part of [handler] before the loop has returned, the only
    way for [handler] to raise is an event that lacks one of the three
    identifiers: then the [KeyError] of [cfnresponse] is raised after the
    loop; otherwise [handler] returns normally, whatever failed in the
    regions or in the HTTP request. *)
Theorem handler_result event context s regions session properties :
  res (handler_setup s) = inr (regions, session, properties) ->
  res (handler event context s)
  = match responseBody_of event context "SUCCESS" (JObj [("Data", JInt 120)])
            default_physicalResourceId default_noEcho with
    | inl e => inl e
    | inr _ => inr tt
    end.
Proof.
  intros Hsetup. rewrite (handler_res _ _ _ _ _ _ Hsetup).
  apply handler_report_res.
Qed.

(** X18. No run of [handler] changes [failed_regions], whatever is refused
    or fails on the way: nothing that [handler] calls writes to it. *)
Theorem handler_leaves_failed_regions event context s :
  failed_regions (final (handler event context s)) = failed_regions s.
Proof. apply handler_keeps_failed_regions. Qed.

Lemma keeps_weaken {A X Y} (f : State W -> X) (g : X -> Y) (m : M W A) :
  respects (keeps f) m -> respects (keeps (fun st => g (f st))) m.
Proof. intros Hm s. unfold keeps. by rewrite (Hm s). Qed.

Lemma enable_gd_member_keeps_other_keys session region properties k :
  k <> "region" ->
  respects (keeps (fun st => failed_members st !! k))
    (enable_gd_member session region properties).
Proof.
  intros Hk s. unfold keeps.
  destruct (enable_gd_member_key_is_literal session region properties s)
    as [->|[l ->]]; [done|].
  by rewrite lookup_insert_ne.
Qed.

(** X19. Whatever happens in a run of [handler], the only key of
    [failed_members] it can change is the literal ["region"]: every other
    key, a region name included, maps to what it mapped to before. *)
Theorem handler_changes_literal_key_only event context s k :
  k <> "region" ->
  failed_members (final (handler event context s)) !! k = failed_members s !! k.
Proof.
  intros Hk.
  assert (Hsetup : respects (keeps (fun st : State W => failed_members st !! k))
                     handler_setup).
  { apply (keeps_weaken failed_members (fun m => m !! k)). respects_auto. }
  assert (Hreport : respects (keeps (fun st : State W => failed_members st !! k))
                      (handler_report event context)).
  { apply (keeps_weaken failed_members (fun m => m !! k)). respects_auto. }
  assert (Hmaster : forall region,
             respects (keeps (fun st : State W => failed_members st !! k))
               (enable_gd_master region)).
  { intros region. apply (keeps_weaken failed_members (fun m => m !! k)).
    respects_auto. }
  assert (Hall : respects (keeps (fun st : State W => failed_members st !! k))
                   (handler event context)).
  { unfold handler. apply respects_bind; [apply _|exact Hsetup|].
    intros [[regions session] properties].
    apply respects_bind; [apply _| |intros _; exact Hreport].
    apply respects_for_each; [apply _|]. intros region. unfold region_turn.
    apply respects_try_except; [apply _| |intros e; apply keeps_emit].
    apply respects_bind; [apply _|apply Hmaster|intros _].
    by apply enable_gd_member_keeps_other_keys. }
  apply Hall.
Qed.

End HandlerFacts.

(** Well-formedness of a document written out in full *)
Ltac wf_document :=
  repeat match goal with
         | |- _ /\ _ => split
         | |- True => exact I
         | |- NoDup _ => cbn [map fst]; compute_done
         | |- wf _ => progress cbn [wf]
         end.

Section ProvisionerFacts.
Context {W : Type} `{Env W}.

(** ** Keys and buckets *)

Lemma bucket_policy_wf bucket_name kms_key_arn :
  wf (bucket_policy bucket_name kms_key_arn).
Proof. unfold bucket_policy, strs. cbn [map snd]. wf_document. Qed.

(** X20. When no key has the alias (the lookup fails, whatever the error),
    [create_kms_key] sends one [create_key] request whose policy is the
    JSON text of the key policy, and then, only if the key was created,
    one [create_alias] request that gives the fixed alias to the key just
    created; it returns the ARN of that key, or raises the error of the
    request that failed; every request goes through the session and the
    region given. *)
Theorem create_kms_key_creates session region s e :
  let o := create_kms_key session region s in
  In (key_alias, inl e) (pick key_lookup (events o)) ->
  Forall (eq (session, region)) (pick kms_client (events o)) /\
  exists created,
    pick key_request (events o)
    = [(dumps key_policy, "The key to encrypt/decrypt GuardDuty findings", created)] /\
    match created with
    | inl failure => res o = inl failure /\ pick alias_request (events o) = []
    | inr key =>
        exists aliased,
          pick alias_request (events o) = [(key_alias, KeyId key, aliased)] /\
          res o = match aliased with
                  | inl failure => inl failure
                  | inr _ => inr (Arn key)
                  end
    end.
Proof.
  intros o. name_outcome o (create_kms_key session region s).
  unfold create_kms_key. run_all.
  all: intros ->; run_views; cbn [In]; intros Hin; destruct_or?; simplify_eq.
  all: split; [repeat constructor|].
  all: eexists; split; [reflexivity|]; try done.
  all: eexists; split; reflexivity.
Qed.

(** Every run of [create_s3_destination], read off its events by the
    answer to [describe_trails]. *)
Lemma create_s3_destination_anatomy sts_session s :
  let o := create_s3_destination sts_session s in
  let describe := CloudTrailDescribeTrails ["aws-controltower-BaselineCloudTrail"] in
  exists answer,
    pick trail_listing (events o) = [answer] /\
    match answer with
    | inl e => res o = inl e /\ pick request (events o) = [describe]
    | inr [] => res o = inl IndexError /\ pick request (events o) = [describe]
    | inr (trail :: _) =>
        let derived := PyStr.replace (S3BucketName trail) "logs" "guardduty" in
        match S3KeyPrefix trail with
        | None =>
            res o = inl (KeyError "S3KeyPrefix") /\
            pick request (events o) = [describe]
        | Some _ =>
            (forall sess,
               In sess (pick s3_session (events o)) ->
               exists credentials partition segments account,
                 sess = StsSession credentials /\
                 In ("arn:" +:+ partition +:+ ":iam::" +:+ account +:+ ":role/"
                       +:+ role_to_assume,
                     "EnableGuardDuty", inr credentials)
                    (pick role_request (events o)) /\
                 PyStr.split (S3BucketName trail) "-" = Some segments /\
                 nth_error segments 3 = Some account) /\
            Forall (eq derived) (pick s3_bucket (events o)) /\
            (forall bucket constraint,
               In (bucket, constraint) (pick bucket_creation (events o)) ->
               Forall (eq (sts_session,
                           match constraint with
                           | Some _ => HomeRegion trail
                           | None => "us-east-1"
                           end))
                 (pick kms_client (events o))) /\
            (forall e,
               In (inl e) (pick bucket_outcome (events o)) ->
               pick kms_client (events o) = [] /\
               pick policy_request (events o)
               = [(derived, dumps (bucket_policy derived EmptyString))] /\
               forall props, res o = inr props -> KmsKeyArn props = EmptyString) /\
            (forall props,
               res o = inr props ->
               DestinationArn props = "arn:aws:s3:::" +:+ derived /\
               pick policy_request (events o)
               = [(derived, dumps (bucket_policy derived (KmsKeyArn props)))] /\
               pick encryption_request (events o) = [(derived, "AES256")])
        end
    end.
Proof.
  intros o describe. subst describe.
  name_outcome o (create_s3_destination sts_session s).
  unfold create_s3_destination, create_kms_key, assume_role.
  run_all.
  all: intros ->; run_views; eexists; (split; [reflexivity|]); cbv beta iota zeta;
    try done.
  all: repeat match goal with
              | H : S3KeyPrefix _ = _ |- _ => rewrite H; clear H
              end; try done.
  all: split;
    [ intros sess Hs; cbn [In] in Hs; destruct_or?; simplify_eq;
      do 4 eexists; (split; [reflexivity|]); (split; [by left|]);
      (split; [eassumption|done]) |].
  all: split; [repeat constructor|].
  all: split;
    [ intros bucket constraint Hb; cbn [In] in Hb; destruct_or?; simplify_eq;
      repeat constructor |].
  all: split;
    [ intros e' He; cbn [In] in He; destruct_or?; simplify_eq;
      (split; [done|]); (split; [done|]); intros props Hp; by simplify_eq |].
  all: intros props Hp; simplify_eq; split_and!; reflexivity.
Qed.

End ProvisionerFacts.

Section DestinationFacts.
Context `{Env W}.

(** A view that shows nothing of request [c] shows nothing of a trace
    whose only request is [c]. *)
Lemma pick_only_request {A} (f : Event -> option A) (c : call) t :
  (forall ev a, f ev = Some a -> exists c', request ev = Some c' /\ c' <> c) ->
  pick request t = [c] -> pick f t = [].
Proof.
  intros Hf Ht. unfold pick in *.
  destruct (omap f t) as [|a l] eqn:Hl; [done|]. exfalso.
  assert (a ∈ omap f t) as Ha by (rewrite Hl; left).
  apply list_elem_of_omap in Ha as (ev & Hev & Hfa).
  destruct (Hf _ _ Hfa) as (c' & Hc' & Hne).
  assert (c' ∈ omap request t) as Hin by (apply list_elem_of_omap; eauto).
  rewrite Ht in Hin. apply list_elem_of_singleton in Hin. done.
Qed.

Ltac view_of_other :=
  intros [c ?| |] ? Hview; [destruct c|..]; cbn in Hview; simplify_eq;
  eexists; (split; [reflexivity|discriminate]).

Ltac only_request Hreq Hin :=
  lazymatch type of Hreq with
  | pick request ?t = [?c] =>
      lazymatch type of Hin with
      | In _ (pick ?f _) =>
          rewrite (pick_only_request f c t ltac:(view_of_other) Hreq) in Hin;
          destruct Hin
      end
  end.

(** X21. When [describe_trails] fails, returns no trail, or returns a first
    trail without [S3KeyPrefix], [create_s3_destination] raises (the error
    of the request, [IndexError], [KeyError] in turn) and has sent no other
    request. *)
Theorem create_s3_destination_stops_early sts_session s answer :
  let o := create_s3_destination sts_session s in
  In answer (pick trail_listing (events o)) ->
  match answer with
  | inr (trail :: _) => S3KeyPrefix trail = None
  | _ => True
  end ->
  res o = inl match answer with
              | inl e => e
              | inr [] => IndexError
              | inr (_ :: _) => KeyError "S3KeyPrefix"
              end /\
  pick request (events o)
  = [CloudTrailDescribeTrails ["aws-controltower-BaselineCloudTrail"]].
Proof.
  intros o Hin Hcase.
  destruct (create_s3_destination_anatomy sts_session s) as (answer' & Hl & Hrun).
  fold o in Hl, Hrun. rewrite Hl in Hin. destruct Hin as [->|[]].
  destruct answer as [e|[|trail rest]]; [done..|].
  cbv zeta in Hrun. by rewrite Hcase in Hrun.
Qed.

(** X22. Every S3 request of [create_s3_destination] goes through a session
    made of credentials that an [assume_role] request returned, for the
    role [role_to_assume] in the account named by the fourth
    hyphen-separated segment of the trail bucket's name. *)
Theorem create_s3_destination_log_account sts_session s trail rest sess :
  let o := create_s3_destination sts_session s in
  In (inr (trail :: rest)) (pick trail_listing (events o)) ->
  In sess (pick s3_session (events o)) ->
  exists credentials partition segments account,
    sess = StsSession credentials /\
    In ("arn:" +:+ partition +:+ ":iam::" +:+ account +:+ ":role/"
          +:+ role_to_assume,
        "EnableGuardDuty", inr credentials)
       (pick role_request (events o)) /\
    PyStr.split (S3BucketName trail) "-" = Some segments /\
    nth_error segments 3 = Some account.
Proof.
  intros o Hin Hsess.
  destruct (create_s3_destination_anatomy sts_session s) as (answer & Hl & Hrun).
  fold o in Hl, Hrun. rewrite Hl in Hin. destruct Hin as [->|[]].
  cbv zeta in Hrun. destruct (S3KeyPrefix trail).
  - destruct Hrun as (Hs & _). by apply Hs.
  - destruct Hrun as (_ & Hreq). only_request Hreq Hsess.
Qed.

(** X23. The key is looked up and created where the bucket is: every KMS
    request of [create_s3_destination] goes through the session given as
    [sts_session], in the home region of the trail when the bucket was
    requested with a location constraint, and in [us-east-1] when it was
    requested without one. *)
Theorem create_s3_destination_key_region sts_session s trail rest bucket constraint :
  let o := create_s3_destination sts_session s in
  In (inr (trail :: rest)) (pick trail_listing (events o)) ->
  In (bucket, constraint) (pick bucket_creation (events o)) ->
  Forall (eq (sts_session,
              match constraint with
              | Some _ => HomeRegion trail
              | None => "us-east-1"
              end))
    (pick kms_client (events o)).
Proof.
  intros o Hin Hbucket.
  destruct (create_s3_destination_anatomy sts_session s) as (answer & Hl & Hrun).
  fold o in Hl, Hrun. rewrite Hl in Hin. destruct Hin as [->|[]].
  cbv zeta in Hrun. destruct (S3KeyPrefix trail).
  - destruct Hrun as (_ & _ & Hk & _). exact (Hk _ _ Hbucket).
  - destruct Hrun as (_ & Hreq). only_request Hreq Hbucket.
Qed.

(** X24. When [create_bucket] fails, with whatever exception,
    [create_s3_destination] sends no KMS request at all, goes on to put a
    bucket policy whose key condition is the empty string, and any
    properties it returns have the empty string as [KmsKeyArn]. *)
Theorem create_s3_destination_bucket_failure sts_session s e :
  let o := create_s3_destination sts_session s in
  In (inl e) (pick bucket_outcome (events o)) ->
  pick kms_client (events o) = [] /\
  (exists bucket,
     pick policy_request (events o)
     = [(bucket, dumps (bucket_policy bucket EmptyString))]) /\
  forall props, res o = inr props -> KmsKeyArn props = EmptyString.
Proof.
  intros o Hin.
  destruct (create_s3_destination_anatomy sts_session s) as (answer & Hl & Hrun).
  fold o in Hl, Hrun.
  destruct answer as [e'|[|trail rest]]; cbv zeta in Hrun.
  1,2: destruct Hrun as (_ & Hreq); only_request Hreq Hin.
  destruct (S3KeyPrefix trail).
  - destruct Hrun as (_ & _ & _ & Hf & _).
    destruct (Hf _ Hin) as (Hk & Hp & Hprops). eauto.
  - destruct Hrun as (_ & Hreq). only_request Hreq Hin.
Qed.

(** X25. When [create_s3_destination] returns, it has sent exactly one
    [put_bucket_policy] and one [put_bucket_encryption] request, both for
    the bucket of the returned [DestinationArn]; the encryption is
    [AES256]; and the policy text reads back, through the decoder
    [loads], as the policy document for that bucket and the returned
    [KmsKeyArn], whatever characters the two contain. *)
Theorem create_s3_destination_policy sts_session s props :
  let o := create_s3_destination sts_session s in
  res o = inr props ->
  exists bucket text,
    DestinationArn props = "arn:aws:s3:::" +:+ bucket /\
    pick policy_request (events o) = [(bucket, text)] /\
    loads text = Some (bucket_policy bucket (KmsKeyArn props)) /\
    pick encryption_request (events o) = [(bucket, "AES256")].
Proof.
  intros o Hres.
  destruct (create_s3_destination_anatomy sts_session s) as (answer & Hl & Hrun).
  fold o in Hl, Hrun.
  destruct answer as [e'|[|trail rest]]; cbv zeta in Hrun.
  1,2: destruct Hrun as (Hfail & _); congruence.
  destruct (S3KeyPrefix trail).
  - destruct Hrun as (_ & _ & _ & _ & Hok).
    destruct (Hok _ Hres) as (Harn & Hp & Henc).
    do 2 eexists. split_and!; [done..| |done].
    apply JsonFacts.loads_dumps, bucket_policy_wf.
  - destruct Hrun as (Hfail & _); congruence.
Qed.

(** X26. When the name of the trail bucket has no ["logs"] in it, every S3
    request of [create_s3_destination] (bucket creation, policy,
    encryption) names the trail bucket itself, and so does the returned
    [DestinationArn]. *)
Theorem create_s3_destination_same_bucket sts_session s trail rest :
  let o := create_s3_destination sts_session s in
  In (inr (trail :: rest)) (pick trail_listing (events o)) ->
  py_contains "logs" (S3BucketName trail) = false ->
  Forall (eq (S3BucketName trail)) (pick s3_bucket (events o)) /\
  forall props,
    res o = inr props ->
    DestinationArn props = "arn:aws:s3:::" +:+ S3BucketName trail.
Proof.
  intros o Hin Hplain.
  destruct (create_s3_destination_anatomy sts_session s) as (answer & Hl & Hrun).
  fold o in Hl, Hrun. rewrite Hl in Hin. destruct Hin as [->|[]].
  cbv zeta in Hrun.
  assert (PyStr.replace (S3BucketName trail) "logs" "guardduty" = S3BucketName trail)
    as Hsame by (by apply PyStrMore.replace_from_without).
  rewrite Hsame in Hrun. destruct (S3KeyPrefix trail).
  - destruct Hrun as (_ & Hb & _ & _ & Hok). split; [done|].
    intros props Hres. by destruct (Hok _ Hres).
  - destruct Hrun as (Hfail & Hreq). split.
    + rewrite (pick_only_request s3_bucket
                 (CloudTrailDescribeTrails ["aws-controltower-BaselineCloudTrail"])
                 _ ltac:(view_of_other) Hreq).
      constructor.
    + intros props Hres. congruence.
Qed.

End DestinationFacts.

(** ** The further facts on concrete surroundings *)

Section MoreExamples.
Import Scenario.

Lemma split_join_witness :
  PyStr.split trail_bucket "-"
  = Some ["aws"; "controltower"; "logs"; "123456789012"; "us"; "east"; "1"] /\
  py_join "-" ["aws"; "controltower"; "logs"; "123456789012"; "us"; "east"; "1"]
  = trail_bucket.
Proof.
  assert (Hs : PyStr.split trail_bucket "-"
               = Some ["aws"; "controltower"; "logs"; "123456789012"; "us"; "east"; "1"])
    by (vm_compute; reflexivity).
  split; [exact Hs|]. exact (proj2 (split_join _ _ _ Hs)).
Defined.

Lemma replace_occurrence_witness :
  py_contains "logs" "org-audit-trail-123456789012" = false /\
  PyStr.replace "org-audit-trail-123456789012" "logs" "guardduty"
  = "org-audit-trail-123456789012".
Proof.
  assert (Hc : py_contains "logs" "org-audit-trail-123456789012" = false)
    by (vm_compute; reflexivity).
  split; [exact Hc|]. exact (proj1 (replace_occurrence _ "logs" "guardduty") Hc).
Defined.

Lemma assume_role_request_witness :
  In ("arn:aws:iam::123456789012:role/AWSControlTowerExecution", "EnableGuardDuty",
      inr (mkCredentials "AKIA" "secret" "token"))
     (pick role_request
        (events (assume_role (H := healthy) "123456789012"
                   "AWSControlTowerExecution" start))) /\
  res (assume_role (H := healthy) "123456789012" "AWSControlTowerExecution" start)
  = inr master_session.
Proof.
  assert (Hin : In ("arn:aws:iam::123456789012:role/AWSControlTowerExecution",
                    "EnableGuardDuty", inr (mkCredentials "AKIA" "secret" "token"))
                  (pick role_request
                     (events (assume_role (H := healthy) "123456789012"
                                "AWSControlTowerExecution" start))))
    by (vm_compute; left; reflexivity).
  split; [exact Hin|].
  exact (proj1 (proj2 (assume_role_request (H := healthy) _ _ _ _ _ _ Hin))).
Defined.

Lemma assume_role_without_partition_witness :
  In (inr "enabler")
     (pick identity_answer
        (events (assume_role (H := env odd_identity) "123456789012"
                   "AWSControlTowerExecution" start))) /\
  py_contains ":" "enabler" = false /\
  res (assume_role (H := env odd_identity) "123456789012"
         "AWSControlTowerExecution" start)
  = inl IndexError.
Proof.
  assert (Hin : In (inr "enabler")
                  (pick identity_answer
                     (events (assume_role (H := env odd_identity) "123456789012"
                                "AWSControlTowerExecution" start))))
    by (vm_compute; left; reflexivity).
  assert (Hc : py_contains ":" "enabler" = false) by (vm_compute; reflexivity).
  split; [exact Hin|]. split; [exact Hc|].
  exact (proj1 (assume_role_without_partition (H := env odd_identity) _ _ _ _ Hin Hc)).
Defined.

Lemma enable_gd_member_lookup_fails_witness :
  In ("us-east-1", inl (ClientError "AccessDeniedException"))
     (pick detector_listing
        (events (enable_gd_member (H := env detectors_refused) master_session
                   "us-east-1" destination start))) /\
  res (enable_gd_member (H := env detectors_refused) master_session "us-east-1"
         destination start)
  = inr tt.
Proof.
  assert (Hin : In ("us-east-1", inl (ClientError "AccessDeniedException"))
                  (pick detector_listing
                     (events (enable_gd_member (H := env detectors_refused)
                                master_session "us-east-1" destination start))))
    by (vm_compute; left; reflexivity).
  split; [exact Hin|].
  exact (proj1 (enable_gd_member_lookup_fails (H := env detectors_refused)
                  _ _ _ _ _ Hin)).
Defined.

Lemma enable_gd_member_requests_witness :
  In ("us-east-1", inr ["detector-1"])
     (pick detector_listing
        (events (enable_gd_member (H := healthy) master_session "us-east-1"
                   destination start))) /\
  exists listed,
    pick request
      (events (enable_gd_member (H := healthy) master_session "us-east-1"
                 destination start))
    `prefix_of`
      [ GdListDetectors master_session "us-east-1";
        GdCreatePublishingDestination master_session "us-east-1" "detector-1" "S3"
          destination "detector-1";
        OrganizationsListAccounts master_session;
        GdCreateMembers master_session "us-east-1" "detector-1"
          (roster (H := healthy) listed);
        GdUpdateOrganizationConfiguration master_session "us-east-1" "detector-1"
          true ].
Proof.
  assert (Hin : In ("us-east-1", inr ["detector-1"])
                  (pick detector_listing
                     (events (enable_gd_member (H := healthy) master_session
                                "us-east-1" destination start))))
    by (vm_compute; left; reflexivity).
  split; [exact Hin|].
  destruct (enable_gd_member_requests (H := healthy) _ _ _ _ _ _ Hin)
    as (listed & _ & Hprefix).
  exists listed. exact Hprefix.
Defined.

Lemma enable_gd_member_publishing_fails_witness :
  In (inl (ClientError "BadRequestException"))
     (pick publishing_outcome
        (events (enable_gd_member (H := env destination_refused) master_session
                   "us-east-1" destination start))) /\
  pick member_request
    (events (enable_gd_member (H := env destination_refused) master_session
               "us-east-1" destination start))
  = [].
Proof.
  assert (Hin : In (inl (ClientError "BadRequestException"))
                  (pick publishing_outcome
                     (events (enable_gd_member (H := env destination_refused)
                                master_session "us-east-1" destination start))))
    by (vm_compute; left; reflexivity).
  split; [exact Hin|].
  exact (proj1 (proj2 (proj2 (enable_gd_member_publishing_fails
                                (H := env destination_refused) _ _ _ _ _ Hin)))).
Defined.

Lemma enable_gd_member_completes_witness :
  In (inr tt)
     (pick autoenable_outcome
        (events (enable_gd_member (H := env member_unprocessed) master_session
                   "us-east-1" destination start))) /\
  res (enable_gd_member (H := env member_unprocessed) master_session "us-east-1"
         destination start)
  = inr tt.
Proof.
  assert (Hin : In (inr tt)
                  (pick autoenable_outcome
                     (events (enable_gd_member (H := env member_unprocessed)
                                master_session "us-east-1" destination start))))
    by (vm_compute; left; reflexivity).
  split; [exact Hin|].
  exact (proj1 (enable_gd_member_completes (H := env member_unprocessed)
                  _ _ _ _ Hin)).
Defined.

Lemma enable_gd_member_autoenable_fails_witness :
  In (inl (ClientError "BadRequestException"))
     (pick autoenable_outcome
        (events (enable_gd_member (H := env autoenable_refused) master_session
                   "us-east-1" destination start))) /\
  failed_members
    (final (enable_gd_member (H := env autoenable_refused) master_session
              "us-east-1" destination start))
  = failed_members start.
Proof.
  assert (Hin : In (inl (ClientError "BadRequestException"))
                  (pick autoenable_outcome
                     (events (enable_gd_member (H := env autoenable_refused)
                                master_session "us-east-1" destination start))))
    by (vm_compute; left; reflexivity).
  split; [exact Hin|].
  exact (proj1 (enable_gd_member_autoenable_fails (H := env autoenable_refused)
                  _ _ _ _ _ Hin)).
Defined.

Lemma cfnresponse_best_effort_witness :
  responseBody_of event context "SUCCESS" (JObj [("Data", JInt 120)])
    default_physicalResourceId default_noEcho = inr response_body /\
  res (cfnresponse (H := env put_fails) event context "SUCCESS"
         (JObj [("Data", JInt 120)]) default_physicalResourceId default_noEcho
         start)
  = inr tt.
Proof.
  assert (Hbody : responseBody_of event context "SUCCESS" (JObj [("Data", JInt 120)])
                    default_physicalResourceId default_noEcho = inr response_body)
    by (vm_compute; reflexivity).
  split; [exact Hbody|].
  exact (proj1 (cfnresponse_best_effort (H := env put_fails) _ _ _ _ _ _ start _
                  Hbody)).
Defined.

Lemma cfnresponse_missing_identifier_witness :
  responseBody_of event_without_stack context "SUCCESS" (JObj [("Data", JInt 120)])
    default_physicalResourceId default_noEcho = inl (KeyError "StackId") /\
  pick request
    (events (cfnresponse (H := healthy) event_without_stack context "SUCCESS"
               (JObj [("Data", JInt 120)]) default_physicalResourceId
               default_noEcho start))
  = [].
Proof.
  assert (Hbody : responseBody_of event_without_stack context "SUCCESS"
                    (JObj [("Data", JInt 120)]) default_physicalResourceId
                    default_noEcho = inl (KeyError "StackId"))
    by (vm_compute; reflexivity).
  split; [exact Hbody|].
  exact (proj1 (proj2 (cfnresponse_missing_identifier (H := healthy) _ _ _ _ _ _
                         start _ Hbody))).
Defined.

Lemma cfnresponse_content_length_witness :
  In ("https://cloudformation.example/response",
      utf8_encode (dumps (JObj response_body)),
      [("content-type", EmptyString);
       ("content-length",
        int_str (Z.of_nat (String.length (dumps (JObj response_body)))))])
     (pick http_put
        (events (cfnresponse (H := healthy) event context "SUCCESS"
                   (JObj [("Data", JInt 120)]) default_physicalResourceId
                   default_noEcho start))) /\
  event !! "ResponseURL" = Some "https://cloudformation.example/response".
Proof.
  assert (Hin : In ("https://cloudformation.example/response",
                    utf8_encode (dumps (JObj response_body)),
                    [("content-type", EmptyString);
                     ("content-length",
                      int_str (Z.of_nat (String.length (dumps (JObj response_body)))))])
                  (pick http_put
                     (events (cfnresponse (H := healthy) event context "SUCCESS"
                                (JObj [("Data", JInt 120)])
                                default_physicalResourceId default_noEcho start))))
    by (vm_compute; left; reflexivity).
  split; [exact Hin|].
  exact (proj2 (cfnresponse_content_length (H := healthy) _ _ _ _ _ _ _ _ _ _ Hin)).
Defined.

Lemma handler_aborts_without_callback_witness :
  res (handler_setup (H := env role_refused) start)
  = inl (ClientError "AccessDenied") /\
  pick callback (events (handler (H := env role_refused) event context start)) = [].
Proof.
  assert (Hsetup : res (handler_setup (H := env role_refused) start)
                   = inl (ClientError "AccessDenied"))
    by (vm_compute; reflexivity).
  split; [exact Hsetup|].
  exact (proj1 (proj2 (proj2 (proj2
           (handler_aborts_without_callback (H := env role_refused)
              event context start _ Hsetup))))).
Defined.

Lemma handler_result_witness :
  res (handler_setup (H := env members_refused) start)
  = inr (["us-east-1"; "eu-west-1"], master_session, destination) /\
  res (handler (H := env members_refused) event context start) = inr tt.
Proof.
  assert (Hsetup : res (handler_setup (H := env members_refused) start)
                   = inr (["us-east-1"; "eu-west-1"], master_session, destination))
    by (vm_compute; reflexivity).
  split; [exact Hsetup|].
  exact (handler_result (H := env members_refused) event context start _ _ _ Hsetup).
Defined.

Lemma handler_changes_literal_key_only_witness :
  "us-east-1" <> "region" /\
  failed_members (final (handler (H := env member_unprocessed) event context start))
    !! "us-east-1"
  = failed_members start !! "us-east-1".
Proof.
  assert (Hk : "us-east-1" <> "region") by (vm_compute; discriminate).
  split; [exact Hk|].
  exact (handler_changes_literal_key_only (H := env member_unprocessed)
           event context start _ Hk).
Defined.

Lemma create_kms_key_creates_witness :
  In (key_alias, inl (ClientError "NotFoundException"))
     (pick key_lookup
        (events (create_kms_key (H := env key_missing) master_session "us-east-1"
                   start))) /\
  Forall (eq (master_session, "us-east-1"))
    (pick kms_client
       (events (create_kms_key (H := env key_missing) master_session "us-east-1"
                  start))).
Proof.
  assert (Hin : In (key_alias, inl (ClientError "NotFoundException"))
                  (pick key_lookup
                     (events (create_kms_key (H := env key_missing) master_session
                                "us-east-1" start))))
    by (vm_compute; left; reflexivity).
  split; [exact Hin|].
  exact (proj1 (create_kms_key_creates (H := env key_missing) _ _ _ _ Hin)).
Defined.

Lemma create_s3_destination_stops_early_witness :
  In (inr [mkTrail trail_bucket None "us-east-1"])
     (pick trail_listing
        (events (create_s3_destination (H := env no_prefix) master_session start))) /\
  S3KeyPrefix (mkTrail trail_bucket None "us-east-1") = None /\
  res (create_s3_destination (H := env no_prefix) master_session start)
  = inl (KeyError "S3KeyPrefix").
Proof.
  assert (Hin : In (inr [mkTrail trail_bucket None "us-east-1"])
                  (pick trail_listing
                     (events (create_s3_destination (H := env no_prefix)
                                master_session start))))
    by (vm_compute; left; reflexivity).
  assert (Hp : S3KeyPrefix (mkTrail trail_bucket None "us-east-1") = None)
    by reflexivity.
  split; [exact Hin|]. split; [exact Hp|].
  exact (proj1 (create_s3_destination_stops_early (H := env no_prefix)
                  master_session start _ Hin Hp)).
Defined.

Lemma create_s3_destination_log_account_witness :
  In (inr [mkTrail trail_bucket (Some "o-abc") "us-east-1"])
     (pick trail_listing
        (events (create_s3_destination (H := healthy) master_session start))) /\
  In master_session
     (pick s3_session
        (events (create_s3_destination (H := healthy) master_session start))) /\
  exists partition segments account,
    In ("arn:" +:+ partition +:+ ":iam::" +:+ account +:+ ":role/"
          +:+ "AWSControlTowerExecution",
        "EnableGuardDuty", inr (mkCredentials "AKIA" "secret" "token"))
       (pick role_request
          (events (create_s3_destination (H := healthy) master_session start))) /\
    PyStr.split trail_bucket "-" = Some segments /\
    nth_error segments 3 = Some account.
Proof.
  assert (Hin : In (inr [mkTrail trail_bucket (Some "o-abc") "us-east-1"])
                  (pick trail_listing
                     (events (create_s3_destination (H := healthy)
                                master_session start))))
    by (vm_compute; left; reflexivity).
  assert (Hs : In master_session
                 (pick s3_session
                    (events (create_s3_destination (H := healthy)
                               master_session start))))
    by (vm_compute; left; reflexivity).
  split; [exact Hin|]. split; [exact Hs|].
  destruct (create_s3_destination_log_account (H := healthy) master_session start
              _ _ _ Hin Hs)
    as (credentials & partition & segments & account & Heq & Hrole & Hsplit & Hnth).
  injection Heq as <-.
  exists partition, segments, account. split; [exact Hrole|].
  split; [exact Hsplit | exact Hnth].
Defined.

Lemma create_s3_destination_key_region_witness :
  In (inr [mkTrail trail_bucket (Some "o-abc") "eu-west-3"])
     (pick trail_listing
        (events (create_s3_destination (H := env (fine "eu-west-3"))
                   master_session start))) /\
  In ("aws-controltower-guardduty-123456789012-us-east-1", Some "EU")
     (pick bucket_creation
        (events (create_s3_destination (H := env (fine "eu-west-3"))
                   master_session start))) /\
  Forall (eq (master_session, "eu-west-3"))
    (pick kms_client
       (events (create_s3_destination (H := env (fine "eu-west-3"))
                  master_session start))).
Proof.
  assert (Hin : In (inr [mkTrail trail_bucket (Some "o-abc") "eu-west-3"])
                  (pick trail_listing
                     (events (create_s3_destination (H := env (fine "eu-west-3"))
                                master_session start))))
    by (vm_compute; left; reflexivity).
  assert (Hb : In ("aws-controltower-guardduty-123456789012-us-east-1", Some "EU")
                 (pick bucket_creation
                    (events (create_s3_destination (H := env (fine "eu-west-3"))
                               master_session start))))
    by (vm_compute; left; reflexivity).
  split; [exact Hin|]. split; [exact Hb|].
  exact (create_s3_destination_key_region (H := env (fine "eu-west-3"))
           master_session start _ _ _ _ Hin Hb).
Defined.

Lemma create_s3_destination_bucket_failure_witness :
  In (inl (ClientError "BucketAlreadyOwnedByYou"))
     (pick bucket_outcome
        (events (create_s3_destination (H := env bucket_exists) master_session
                   start))) /\
  pick kms_client
    (events (create_s3_destination (H := env bucket_exists) master_session start))
  = [].
Proof.
  assert (Hin : In (inl (ClientError "BucketAlreadyOwnedByYou"))
                  (pick bucket_outcome
                     (events (create_s3_destination (H := env bucket_exists)
                                master_session start))))
    by (vm_compute; left; reflexivity).
  split; [exact Hin|].
  exact (proj1 (create_s3_destination_bucket_failure (H := env bucket_exists)
                  master_session start _ Hin)).
Defined.

Lemma create_s3_destination_policy_witness :
  res (create_s3_destination (H := healthy) master_session start) = inr destination /\
  exists bucket,
    DestinationArn destination = "arn:aws:s3:::" +:+ bucket /\
    pick encryption_request
      (events (create_s3_destination (H := healthy) master_session start))
    = [(bucket, "AES256")].
Proof.
  assert (Hres : res (create_s3_destination (H := healthy) master_session start)
                 = inr destination)
    by (vm_compute; reflexivity).
  split; [exact Hres|].
  destruct (create_s3_destination_policy (H := healthy) master_session start _ Hres)
    as (bucket & text & Harn & _ & _ & Henc).
  exists bucket. split; [exact Harn | exact Henc].
Defined.

Lemma create_s3_destination_same_bucket_witness :
  In (inr [mkTrail "org-audit-trail-123456789012" (Some "o-abc") "us-east-1"])
     (pick trail_listing
        (events (create_s3_destination (H := env plain_trail) master_session
                   start))) /\
  py_contains "logs" "org-audit-trail-123456789012" = false /\
  Forall (eq "org-audit-trail-123456789012")
    (pick s3_bucket
       (events (create_s3_destination (H := env plain_trail) master_session start))).
Proof.
  assert (Hin : In (inr [mkTrail "org-audit-trail-123456789012" (Some "o-abc")
                           "us-east-1"])
                  (pick trail_listing
                     (events (create_s3_destination (H := env plain_trail)
                                master_session start))))
    by (vm_compute; left; reflexivity).
  assert (Hc : py_contains "logs" "org-audit-trail-123456789012" = false)
    by (vm_compute; reflexivity).
  split; [exact Hin|]. split; [exact Hc|].
  exact (proj1 (create_s3_destination_same_bucket (H := env plain_trail)
                  master_session start _ _ Hin Hc)).
Defined.

End MoreExamples.
